(** * The multi-level feedback scheduler of code/threads/scheduler.cc

    A shallow embedding of [Scheduler] (code/threads/scheduler.cc and
    scheduler.h): the three ready queues, the placement routine
    [ReadyToRun], the selection routines [FindNextToRun] and
    [PureFindNext], the two halves of the dispatcher [Run] around the
    machine-level [SWITCH], and [CheckToBeDestroyed].

    Thread descriptors live in a heap indexed by their address; the
    queues, [currentThread] and [toBeDestroyed] hold addresses, so that
    a descriptor reachable through several of them is one shared
    object.  Every routine is a computation in a state-and-failure
    monad: a failed [ASSERT] and the use of an address that holds no
    descriptor both stop the kernel. *)

From stdpp Require Import gmap list numbers.
From Stdlib Require Import ZArith QArith Qcanon Sorted Permutation Lia.

Local Open Scope Z_scope.

(** ** Burst times

    [thread.h] is not among the sources, so the C++ type of the predicted
    burst [T] (what [checkT] returns and [setT] takes) is unknown.  The
    scheduler uses four operations on it: the implicit conversion of the
    [int] tick count, the division by the literal [2], [+], and [<].
    They are the interface below; [ltb] is a strict weak order, which is
    what [std::list::sort] requires of its comparator.  Both readings of
    the declaration, [IntBurst] and [RatBurst], are instances, and every
    property below holds for either. *)

Class BurstArith := {
  burst : Type;
  burst_of_ticks : Z -> burst;
  burst_half : burst -> burst;
  burst_add : burst -> burst -> burst;
  burst_ltb : burst -> burst -> bool;
  burst_ltb_irrefl : forall a, burst_ltb a a = false;
  burst_ltb_asym : forall a b, burst_ltb a b = true -> burst_ltb b a = false;
  burst_leb_trans : forall a b c,
    burst_ltb b a = false -> burst_ltb c b = false -> burst_ltb c a = false;
  burst_half_even : forall k,
    burst_add (burst_of_ticks k) (burst_half (burst_of_ticks (2 * k)))
    = burst_of_ticks (2 * k)
}.

(** ** [std::list::sort]

    The C++ library routine, modelled by its contract: a stable sort by
    the comparator [lt] (the element [x] is placed in front of the first
    element that it is strictly smaller than, hence behind every element
    it ties with). *)

Section ListSort.
Context {A : Type} (lt : A -> A -> bool).

Fixpoint sort_insert (x : A) (l : list A) : list A :=
  match l with
  | [] => [x]
  | y :: l' => if lt x y then x :: y :: l' else y :: sort_insert x l'
  end.

Definition list_sort (l : list A) : list A :=
  fold_left (fun acc x => sort_insert x acc) l [].

(** [l] is ascending for [lt]: no element is strictly smaller than one
    in front of it. *)
Definition ascending (l : list A) : Prop :=
  StronglySorted (fun a b => lt b a = false) l.

End ListSort.

(** ** Data model *)

(** A [Thread *]: the address of a descriptor.  [NULL] is [None] of
    [option ptr]. *)
Abbreviation ptr := positive (only parsing).

(** Modelled from the spec: the [ThreadStatus] enumeration of thread.h,
    which is not among the sources ("status: one of NEW, READY, RUNNING,
    BLOCKED, TERMINATED"). *)
Inductive ThreadStatus := NEW | READY | RUNNING | BLOCKED | TERMINATED.

(** [IntStatus] of machine/interrupt.h. *)
Inductive IntStatus := IntOff | IntOn.

(** The ready queue a thread is put on. *)
Inductive Level := L1 | L2 | L3.

(** The four lines [printf] writes, with their arguments:
    "Tick %d: Thread %d is inserted into queue L<k>",
    "Tick %d: Thread %d is removed from queue L<k>",
    "Tick %d: Thread %d is now selected for execution" and
    "Tick %d: Thread %d is replaced, and it has executed %d ticks". *)
Inductive Event :=
  | Inserted (tick id : Z) (k : Level)
  | Removed (tick id : Z) (k : Level)
  | Selected (tick id : Z)
  | Replaced (tick id executed : Z).

(** Calls into the machine-dependent collaborators, in program order. *)
Inductive MachineCall :=
  | SaveUserState (t : ptr)
  | SpaceSaveState (t : ptr)
  | RestoreUserState (t : ptr)
  | SpaceRestoreState (t : ptr).

(** Why the kernel stopped. *)
Inductive Failure :=
  | AssertIntOff            (* ASSERT(kernel->interrupt->getLevel() == IntOff) *)
  | AssertToBeDestroyedNull (* ASSERT(toBeDestroyed == NULL) *)
  | AssertFencepost         (* the assertion inside Thread::CheckOverflow *)
  | InvalidPointer          (* an address that holds no live descriptor *)
  | EmptyFront.             (* front() of an empty std::list *)

Inductive Outcome (A : Type) :=
  | Done (a : A)
  | Abort (f : Failure).
Arguments Done {A} a.
Arguments Abort {A} f.

Section Model.
Context {BA : BurstArith}.

(** The fields of [Thread] the scheduler reads and writes, named after
    their accessors.  [space] tells whether [thread->space != NULL];
    [fencepost] whether the sentinel at the end of the kernel stack is
    intact.  The [int] fields are integers: the scheduler compares and
    copies them, and the one value it computes stays in the range of an
    [int] (see [nextT_in_int_range]). *)
Record Thread := mkThread {
  getID : Z;
  checkPriority : Z;
  checkT : burst;
  checkTempTick : Z;
  lastExecTick : Z;
  status : ThreadStatus;
  space : bool;
  fencepost : bool
}.

Definition setStatus (st : ThreadStatus) (t : Thread) : Thread :=
  mkThread (getID t) (checkPriority t) (checkT t) (checkTempTick t)
           (lastExecTick t) st (space t) (fencepost t).

Definition setT (v : burst) (t : Thread) : Thread :=
  mkThread (getID t) (checkPriority t) v (checkTempTick t)
           (lastExecTick t) (status t) (space t) (fencepost t).

Definition setTempTick (v : Z) (t : Thread) : Thread :=
  mkThread (getID t) (checkPriority t) (checkT t) v
           (lastExecTick t) (status t) (space t) (fencepost t).

Definition setLastExecTick (v : Z) (t : Thread) : Thread :=
  mkThread (getID t) (checkPriority t) (checkT t) (checkTempTick t)
           v (status t) (space t) (fencepost t).

(** The scheduler object together with the parts of [kernel] it
    touches: [kernel->currentThread], [kernel->interrupt->getLevel()],
    [kernel->stats->totalTicks] and the alarm switched by
    [kernel->alarm->setStat]. *)
Record Kernel := mkKernel {
  heap : gmap positive Thread;
  currentThread : ptr;
  intLevel : IntStatus;
  totalTicks : Z;
  alarmStat : bool;
  L1Queue : list ptr;
  L2Queue : list ptr;
  L3Queue : list ptr;
  toBeDestroyed : option ptr;
  enablePreemptOnce : bool;
  output : list Event;
  machine : list MachineCall
}.

(** *** The monad of kernel routines *)

Definition M (A : Type) : Type := Kernel -> Outcome (A * Kernel).

Definition ret {A} (a : A) : M A := fun k => Done (a, k).

Definition bind {A B} (m : M A) (f : A -> M B) : M B :=
  fun k => match m k with
           | Done (a, k') => f a k'
           | Abort e => Abort e
           end.

Definition panic {A} (e : Failure) : M A := fun _ => Abort e.

Definition gets {A} (f : Kernel -> A) : M A := fun k => Done (f k, k).

Definition modify (f : Kernel -> Kernel) : M unit := fun k => Done (tt, f k).
End Model.

Declare Scope kernel_scope.
Delimit Scope kernel_scope with kernel.
Notation "x <- m ;; f" := (bind m (fun x => f))
  (at level 100, m at next level, right associativity) : kernel_scope.
Notation "m ;; f" := (bind m (fun _ => f))
  (at level 100, right associativity) : kernel_scope.

Section Scheduler.
Context {BA : BurstArith}.
Local Open Scope kernel_scope.

(** *** Field updates of the kernel state *)

Definition with_heap (h : gmap positive Thread) (k : Kernel) : Kernel :=
  mkKernel h (currentThread k) (intLevel k) (totalTicks k) (alarmStat k)
           (L1Queue k) (L2Queue k) (L3Queue k) (toBeDestroyed k)
           (enablePreemptOnce k) (output k) (machine k).

Definition with_currentThread (p : ptr) (k : Kernel) : Kernel :=
  mkKernel (heap k) p (intLevel k) (totalTicks k) (alarmStat k)
           (L1Queue k) (L2Queue k) (L3Queue k) (toBeDestroyed k)
           (enablePreemptOnce k) (output k) (machine k).

Definition with_alarmStat (b : bool) (k : Kernel) : Kernel :=
  mkKernel (heap k) (currentThread k) (intLevel k) (totalTicks k) b
           (L1Queue k) (L2Queue k) (L3Queue k) (toBeDestroyed k)
           (enablePreemptOnce k) (output k) (machine k).

Definition with_L1Queue (q : list ptr) (k : Kernel) : Kernel :=
  mkKernel (heap k) (currentThread k) (intLevel k) (totalTicks k) (alarmStat k)
           q (L2Queue k) (L3Queue k) (toBeDestroyed k)
           (enablePreemptOnce k) (output k) (machine k).

Definition with_L2Queue (q : list ptr) (k : Kernel) : Kernel :=
  mkKernel (heap k) (currentThread k) (intLevel k) (totalTicks k) (alarmStat k)
           (L1Queue k) q (L3Queue k) (toBeDestroyed k)
           (enablePreemptOnce k) (output k) (machine k).

Definition with_L3Queue (q : list ptr) (k : Kernel) : Kernel :=
  mkKernel (heap k) (currentThread k) (intLevel k) (totalTicks k) (alarmStat k)
           (L1Queue k) (L2Queue k) q (toBeDestroyed k)
           (enablePreemptOnce k) (output k) (machine k).

Definition with_toBeDestroyed (d : option ptr) (k : Kernel) : Kernel :=
  mkKernel (heap k) (currentThread k) (intLevel k) (totalTicks k) (alarmStat k)
           (L1Queue k) (L2Queue k) (L3Queue k) d
           (enablePreemptOnce k) (output k) (machine k).

Definition with_enablePreemptOnce (b : bool) (k : Kernel) : Kernel :=
  mkKernel (heap k) (currentThread k) (intLevel k) (totalTicks k) (alarmStat k)
           (L1Queue k) (L2Queue k) (L3Queue k) (toBeDestroyed k)
           b (output k) (machine k).

Definition with_output (o : list Event) (k : Kernel) : Kernel :=
  mkKernel (heap k) (currentThread k) (intLevel k) (totalTicks k) (alarmStat k)
           (L1Queue k) (L2Queue k) (L3Queue k) (toBeDestroyed k)
           (enablePreemptOnce k) o (machine k).

Definition with_machine (c : list MachineCall) (k : Kernel) : Kernel :=
  mkKernel (heap k) (currentThread k) (intLevel k) (totalTicks k) (alarmStat k)
           (L1Queue k) (L2Queue k) (L3Queue k) (toBeDestroyed k)
           (enablePreemptOnce k) (output k) c.

(** *** Primitive steps *)

Definition ASSERT (b : bool) (e : Failure) : M unit :=
  if b then ret tt else panic e.

Definition isIntOff (l : IntStatus) : bool :=
  match l with IntOff => true | IntOn => false end.

(** [*p]: reading through a [Thread *]. *)
Definition deref (p : ptr) : M Thread :=
  fun k => match heap k !! p with
           | Some t => Done (t, k)
           | None => Abort InvalidPointer
           end.

(** [p->set...(...)]: a member function that updates the descriptor at
    [p] in place. *)
Definition update (p : ptr) (f : Thread -> Thread) : M unit :=
  t <- deref p ;;
  modify (fun k => with_heap (<[p := f t]> (heap k)) k).

Definition printf (e : Event) : M unit :=
  modify (fun k => with_output (output k ++ [e]) k).

Definition call (c : MachineCall) : M unit :=
  modify (fun k => with_machine (machine k ++ [c]) k).

(** [q->front()], undefined on an empty list. *)
Definition front (q : list ptr) : M ptr :=
  match q with
  | [] => panic EmptyFront
  | p :: _ => ret p
  end.

(** [q->pop_front()]. *)
Definition pop_front (q : list ptr) : list ptr := tail q.

(** [q->empty()]. *)
Definition empty (q : list ptr) : bool :=
  match q with [] => true | _ :: _ => false end.

(** *** The comparators (scheduler.cc, lines 28-34), on the
    descriptors their arguments point to *)

Definition cmpL2 (th1 th2 : Thread) : bool :=
  checkPriority th1 >? checkPriority th2.

Definition cmpL1 (th1 th2 : Thread) : bool :=
  burst_ltb (checkT th1) (checkT th2).

Definition live (h : gmap positive Thread) (p : ptr) : bool :=
  match h !! p with Some _ => true | None => false end.

(** Every pointer of a queue with the descriptor behind it; [None] if
    one of them is dangling. *)
Fixpoint deref_all (h : gmap positive Thread) (q : list ptr)
    : option (list (ptr * Thread)) :=
  match q with
  | [] => Some []
  | p :: q' =>
      match h !! p, deref_all h q' with
      | Some t, Some r => Some ((p, t) :: r)
      | _, _ => None
      end
  end.

(** The comparator a queue of pointers is sorted with. *)
Definition through (cmp : Thread -> Thread -> bool)
    (a b : ptr * Thread) : bool :=
  cmp (snd a) (snd b).

(** [q->sort(cmp)]: the comparator reads through the pointers of the
    queue, so all of them have to be live. *)
Definition sorted_by (cmp : Thread -> Thread -> bool) (q : list ptr)
    : M (list ptr) :=
  h <- gets heap ;;
  match deref_all h q with
  | Some pts => ret (map fst (list_sort (through cmp) pts))
  | None => panic InvalidPointer
  end.

(** *** Scheduler::Scheduler (lines 42-49), given the rest of the
    kernel. *)
Definition Scheduler (k : Kernel) : Kernel :=
  mkKernel (heap k) (currentThread k) (intLevel k) (totalTicks k) (alarmStat k)
           [] [] [] None false (output k) (machine k).

(** The value [ReadyToRun] stores into the running thread's [T]:
    [checkTempTick() / 2 + checkT() / 2], the first division on [int]s. *)
Definition nextT (c : Thread) : burst :=
  burst_add (burst_of_ticks (Z.quot (checkTempTick c) 2))
            (burst_half (checkT c)).

(** *** Scheduler::ReadyToRun (lines 71-98)

    The [DEBUG] line prints only under a debug flag and is left out,
    here and in [Run]. *)
Definition ReadyToRun (thread : ptr) : M unit :=
  lvl <- gets intLevel ;;
  ASSERT (isIntOff lvl) AssertIntOff ;;
  update thread (setStatus READY) ;;
  cur <- gets currentThread ;;
  (if bool_decide (cur <> thread)
   then update cur (fun c => setT (nextT c) c)
   else ret tt) ;;
  th <- deref thread ;;
  tick <- gets totalTicks ;;
  if checkPriority th <? 50 then
    printf (Inserted tick (getID th) L3) ;;
    modify (fun k => with_L3Queue (L3Queue k ++ [thread]) k)
  else if checkPriority th <? 100 then
    printf (Inserted tick (getID th) L2) ;;
    modify (fun k => with_L2Queue (L2Queue k ++ [thread]) k) ;;
    q <- gets L2Queue ;;
    q' <- sorted_by cmpL2 q ;;
    modify (with_L2Queue q') ;;
    cur <- gets currentThread ;;
    if bool_decide (cur <> thread)
    then modify (with_enablePreemptOnce true) else ret tt
  else
    printf (Inserted tick (getID th) L1) ;;
    modify (fun k => with_L1Queue (L1Queue k ++ [thread]) k) ;;
    q <- gets L1Queue ;;
    q' <- sorted_by cmpL1 q ;;
    modify (with_L1Queue q') ;;
    cur <- gets currentThread ;;
    if bool_decide (cur <> thread)
    then modify (with_enablePreemptOnce true) else ret tt.

(** *** Scheduler::FindNextToRun (lines 108-144) *)
Definition FindNextToRun : M (option ptr) :=
  lvl <- gets intLevel ;;
  ASSERT (isIntOff lvl) AssertIntOff ;;
  q1 <- gets L1Queue ;; q2 <- gets L2Queue ;; q3 <- gets L3Queue ;;
  if empty q1 && empty q2 && empty q3 then
    ret None
  else if empty q1 && empty q2 then
    modify (with_alarmStat true) ;;
    thread <- front q3 ;;
    modify (with_L3Queue (pop_front q3)) ;;
    th <- deref thread ;;
    tick <- gets totalTicks ;;
    printf (Removed tick (getID th) L3) ;;
    ret (Some thread)
  else if empty q1 then
    modify (with_alarmStat false) ;;
    thread <- front q2 ;;
    modify (with_L2Queue (pop_front q2)) ;;
    th <- deref thread ;;
    tick <- gets totalTicks ;;
    printf (Removed tick (getID th) L2) ;;
    ret (Some thread)
  else
    modify (with_alarmStat false) ;;
    thread <- front q1 ;;
    modify (with_L1Queue (pop_front q1)) ;;
    th <- deref thread ;;
    tick <- gets totalTicks ;;
    printf (Removed tick (getID th) L1) ;;
    ret (Some thread).

(** *** Scheduler::PureFindNext (lines 146-165) *)
Definition PureFindNext : M (option ptr) :=
  lvl <- gets intLevel ;;
  ASSERT (isIntOff lvl) AssertIntOff ;;
  q1 <- gets L1Queue ;; q2 <- gets L2Queue ;; q3 <- gets L3Queue ;;
  if empty q1 && empty q2 && empty q3 then
    ret None
  else if empty q1 && empty q2 then
    thread <- front q3 ;; ret (Some thread)
  else if empty q1 then
    thread <- front q2 ;; ret (Some thread)
  else
    thread <- front q1 ;; ret (Some thread).

(** Modelled from the spec: [delete] of a [Thread], whose destructor is
    in thread.cc, not among the sources ("Destroys the pending thread
    (releasing its kernel stack and descriptor)"): the descriptor
    leaves the heap.  Deleting an address that holds none is undefined. *)
Definition delete_thread (p : ptr) : M unit :=
  _ <- deref p ;;
  modify (fun k => with_heap (delete p (heap k)) k).

(** *** Scheduler::CheckToBeDestroyed (lines 245-252) *)
Definition CheckToBeDestroyed : M unit :=
  d <- gets toBeDestroyed ;;
  match d with
  | Some p =>
      delete_thread p ;;
      modify (with_toBeDestroyed None)
  | None => ret tt
  end.

(** Modelled from the spec: [Thread::CheckOverflow] of thread.cc, not
    among the sources ("sentinel check, assertion on failure"). *)
Definition CheckOverflow (p : ptr) : M unit :=
  t <- deref p ;;
  ASSERT (fencepost t) AssertFencepost.

(** *** Scheduler::Run (lines 184-235)

    [Run] does not return before some later dispatch switches back to
    the old thread, so it is two routines: [Run_dispatch] is the code
    up to [SWITCH] and yields the local [oldThread]; [Run_resume] is
    the code after it, executed when [oldThread] is on the CPU again. *)
Definition Run_dispatch (nextThread : ptr) (finishing : bool) : M ptr :=
  oldThread <- gets currentThread ;;
  lvl <- gets intLevel ;;
  ASSERT (isIntOff lvl) AssertIntOff ;;
  (if finishing then
     d <- gets toBeDestroyed ;;
     ASSERT (bool_decide (d = None)) AssertToBeDestroyedNull ;;
     modify (with_toBeDestroyed (Some oldThread))
   else ret tt) ;;
  old <- deref oldThread ;;
  (if space old then
     call (SaveUserState oldThread) ;;
     call (SpaceSaveState oldThread)
   else ret tt) ;;
  CheckOverflow oldThread ;;
  modify (with_currentThread nextThread) ;;
  update nextThread (setStatus RUNNING) ;;
  tick <- gets totalTicks ;;
  next <- deref nextThread ;;
  printf (Selected tick (getID next)) ;;
  old <- deref oldThread ;;
  printf (Replaced tick (getID old) (checkTempTick old)) ;;
  update oldThread (setLastExecTick tick) ;;
  update oldThread (setTempTick 0) ;;
  ret oldThread.

Definition Run_resume (oldThread : ptr) : M unit :=
  lvl <- gets intLevel ;;
  ASSERT (isIntOff lvl) AssertIntOff ;;
  CheckToBeDestroyed ;;
  old <- deref oldThread ;;
  if space old then
    call (RestoreUserState oldThread) ;;
    call (SpaceRestoreState oldThread)
  else ret tt.

(** *** Well-formed states *)

(** Every address the scheduler will read through holds a descriptor. *)
Definition heap_closed (k : Kernel) : bool :=
  live (heap k) (currentThread k)
  && forallb (live (heap k)) (L1Queue k)
  && forallb (live (heap k)) (L2Queue k)
  && forallb (live (heap k)) (L3Queue k).

(** The band of a priority (scheduler.cc, lines 81, 85 and 91). *)
Definition band (priority : Z) : Level :=
  if priority <? 50 then L3 else if priority <? 100 then L2 else L1.

Definition queue (l : Level) (k : Kernel) : list ptr :=
  match l with L1 => L1Queue k | L2 => L2Queue k | L3 => L3Queue k end.

(** The queue [q] is in the order of [cmp]: no thread on it compares
    strictly before a thread in front of it. *)
Definition ordered (cmp : Thread -> Thread -> bool)
    (h : gmap positive Thread) (q : list ptr) : Prop :=
  StronglySorted
    (fun p p' => forall t t',
         h !! p = Some t -> h !! p' = Some t' -> cmp t' t = false) q.

(** L1 by ascending [T], L2 by descending priority. *)
Definition L1_ordered (k : Kernel) : Prop :=
  ordered cmpL1 (heap k) (L1Queue k).

Definition L2_ordered (k : Kernel) : Prop :=
  ordered cmpL2 (heap k) (L2Queue k).

(** [ordered], decided. *)
Fixpoint orderedb (cmp : Thread -> Thread -> bool)
    (h : gmap positive Thread) (q : list ptr) : bool :=
  match q with
  | [] => true
  | p :: q' =>
      forallb (fun p' => match h !! p, h !! p' with
                         | Some t, Some t' => negb (cmp t' t)
                         | _, _ => true
                         end) q'
      && orderedb cmp h q'
  end.

(** The state a run ends in ([k] itself if the kernel stopped). *)
Definition state_of {A} (m : M A) (k : Kernel) : Kernel :=
  match m k with
  | Done (_, k') => k'
  | Abort _ => k
  end.

(** The value a run returns, if the kernel did not stop. *)
Definition value_of {A} (m : M A) (k : Kernel) : option A :=
  match m k with
  | Done (a, _) => Some a
  | Abort _ => None
  end.


(** The pair [a] is a pointer with the descriptor it points to. *)
Definition points_to (h : gmap positive Thread) (a : ptr * Thread) : Prop :=
  h !! fst a = Some (snd a).

(** [q'] is what [sort(cmp)] makes of the queue [q] in heap [h]. *)
Definition sorted_from (cmp : Thread -> Thread -> bool)
    (h : gmap positive Thread) (q q' : list ptr) : Prop :=
  exists pts, deref_all h q = Some pts /\
              q' = map fst (list_sort (through cmp) pts).

(** The heap [ReadyToRun thread] leaves behind: [thread] is READY and,
    unless [thread] is the running thread, the running thread has a
    new [T]. *)
Definition admitted_heap (thread : ptr) (k : Kernel) : gmap positive Thread :=
  let h := alter (setStatus READY) thread (heap k) in
  if bool_decide (currentThread k <> thread)
  then alter (fun c => setT (nextT c) c) (currentThread k) h
  else h.

(** The fields [ReadyToRun] never writes. *)
Definition same_kernel_context (k k' : Kernel) : Prop :=
  currentThread k' = currentThread k /\ intLevel k' = intLevel k /\
  totalTicks k' = totalTicks k /\ alarmStat k' = alarmStat k /\
  toBeDestroyed k' = toBeDestroyed k /\ machine k' = machine k.

(** What [ReadyToRun thread] makes of [k] when [thread] points to the
    descriptor [th]. *)
Definition admits (thread : ptr) (th : Thread) (k k' : Kernel) : Prop :=
  heap k' = admitted_heap thread k /\
  same_kernel_context k k' /\
  output k' = output k ++
    [Inserted (totalTicks k) (getID th) (band (checkPriority th))] /\
  match band (checkPriority th) with
  | L3 =>
      L1Queue k' = L1Queue k /\ L2Queue k' = L2Queue k /\
      L3Queue k' = L3Queue k ++ [thread] /\
      enablePreemptOnce k' = enablePreemptOnce k
  | L2 =>
      L1Queue k' = L1Queue k /\ L3Queue k' = L3Queue k /\
      sorted_from cmpL2 (heap k') (L2Queue k ++ [thread]) (L2Queue k') /\
      enablePreemptOnce k' =
        bool_decide (currentThread k <> thread) || enablePreemptOnce k
  | L1 =>
      L2Queue k' = L2Queue k /\ L3Queue k' = L3Queue k /\
      sorted_from cmpL1 (heap k') (L1Queue k ++ [thread]) (L1Queue k') /\
      enablePreemptOnce k' =
        bool_decide (currentThread k <> thread) || enablePreemptOnce k
  end.

(** Everything that is ready, in the order it will be selected. *)
Definition ready (k : Kernel) : list ptr :=
  L1Queue k ++ L2Queue k ++ L3Queue k.

(** [n] calls of [FindNextToRun] in a row, with what they return. *)
Fixpoint select_n (n : nat) : M (list (option ptr)) :=
  match n with
  | O => ret []
  | S n' =>
      r <- FindNextToRun ;;
      rs <- select_n n' ;;
      ret (r :: rs)
  end.

(** The heap [Run] leaves behind at [SWITCH]: [nextThread] is RUNNING,
    and the old thread has its last tick recorded and its tick count
    reset, in this order. *)
Definition dispatched_heap (nextThread : ptr) (k : Kernel)
    : gmap positive Thread :=
  alter (setTempTick 0) (currentThread k)
    (alter (setLastExecTick (totalTicks k)) (currentThread k)
       (alter (setStatus RUNNING) nextThread (heap k))).

(** The queues and the flag, which [Run] and [CheckToBeDestroyed] never
    write. *)
Definition same_ready_set (k k' : Kernel) : Prop :=
  L1Queue k' = L1Queue k /\ L2Queue k' = L2Queue k /\
  L3Queue k' = L3Queue k /\ enablePreemptOnce k' = enablePreemptOnce k.
End Scheduler.

(** ** Concrete kernels *)

Section Examples.
Context {BA : BurstArith}.

(** A kernel thread without address space, intact stack, never run. *)
Definition thread_of (id priority T tempTick : Z) (st : ThreadStatus)
    : Thread :=
  mkThread id priority (burst_of_ticks T) tempTick 0 st false true.

(** A kernel with the given descriptors at addresses 1, 2, ..., the
    first of them running, interrupts off, and a fresh scheduler. *)
Definition boot (threads : list Thread) : Kernel :=
  Scheduler
    (mkKernel (list_to_map (zip (map Pos.of_nat (seq 1 (length threads)))
                                threads))
              1%positive IntOff 0 false [] [] [] None false [] []).

(** A (priority 120, T = 100) runs; B (priority 120, T = 30) and
    C (priority 10) are new. *)
Definition kernel_ABC : Kernel :=
  boot [thread_of 1 120 100 0 RUNNING;
        thread_of 2 120 30 0 NEW;
        thread_of 3 10 0 0 NEW].

(** A (priority 120, T = 50) has run for 20 ticks; B is new. *)
Definition kernel_yield : Kernel :=
  boot [thread_of 1 120 50 20 RUNNING;
        thread_of 2 130 10 0 NEW].

(** The running thread has run for 3 ticks and its [T] is 3. *)
Definition kernel_odd : Kernel :=
  boot [thread_of 1 120 3 3 RUNNING;
        thread_of 2 10 0 0 NEW].

(** The running thread has run for 4 ticks and its [T] is 4. *)
Definition kernel_even : Kernel :=
  boot [thread_of 1 120 4 4 RUNNING;
        thread_of 2 10 0 0 NEW].

(** A runs; B has terminated, C runs "elsewhere". *)
Definition kernel_dead : Kernel :=
  boot [thread_of 1 120 50 0 RUNNING;
        thread_of 2 10 0 0 TERMINATED;
        thread_of 3 60 0 0 RUNNING].

(** Threads on all three queues and one pending destruction. *)
Definition kernel_busy : Kernel :=
  with_toBeDestroyed (Some 5%positive)
    (with_L3Queue [4%positive]
       (with_L2Queue [3%positive]
          (with_L1Queue [2%positive]
             (boot [thread_of 1 120 50 0 RUNNING;
                    thread_of 2 110 10 0 READY;
                    thread_of 3 60 0 0 READY;
                    thread_of 4 10 0 0 READY;
                    thread_of 5 10 0 0 TERMINATED])))).

(** Thread 1 idles; A = 2, B = 3 and C = 4 are new, with the priorities
    and predicted bursts given. *)
Definition kernel_three (pa ta pb tb pc tc : Z) : Kernel :=
  boot [thread_of 1 0 0 0 RUNNING;
        thread_of 2 pa ta 0 NEW;
        thread_of 3 pb tb 0 NEW;
        thread_of 4 pc tc 0 NEW].

(** Admit A, B and C in this order, then select three times. *)
Definition admit_and_select : M (list (option ptr)) :=
  (ReadyToRun 2%positive ;; ReadyToRun 3%positive ;; ReadyToRun 4%positive ;;
   a <- FindNextToRun ;; b <- FindNextToRun ;; c <- FindNextToRun ;;
   ret [a; b; c])%kernel.


(** Thread 1, a user program whose stack sentinel is intact or not, has
    run for 7 ticks; thread 2 is a new user program. *)
Definition kernel_user (sentinel : bool) : Kernel :=
  boot [mkThread 1 120 (burst_of_ticks 50) 7 0 RUNNING true sentinel;
        mkThread 2 60 (burst_of_ticks 0) 0 0 NEW true true].

(** L1 holds threads 2 (T = 10) and 3 (T = 30), L2 threads 4 (priority
    80) and 5 (priority 60); thread 6 (priority 110, T = 20) and thread
    7 (priority 70) are new; thread 1 runs. *)
Definition kernel_queued : Kernel :=
  with_L2Queue [4%positive; 5%positive]
    (with_L1Queue [2%positive; 3%positive]
       (boot [thread_of 1 120 50 0 RUNNING;
              thread_of 2 110 10 0 READY;
              thread_of 3 110 30 0 READY;
              thread_of 4 80 0 0 READY;
              thread_of 5 60 0 0 READY;
              thread_of 6 110 20 0 NEW;
              thread_of 7 70 0 0 NEW])).
End Examples.

(** ** The two readings of the burst type *)

(** [<] on integers is a strict weak order, and halving an even number
    is exact. *)
Lemma Z_ltb_asym (a b : Z) : (a <? b) = true -> (b <? a) = false.
Proof. intros Hab. apply Z.ltb_lt in Hab. apply Z.ltb_ge. lia. Qed.

Lemma Z_leb_trans (a b c : Z) :
  (b <? a) = false -> (c <? b) = false -> (c <? a) = false.
Proof.
  intros Hba Hcb. apply Z.ltb_ge in Hba, Hcb. apply Z.ltb_ge. lia.
Qed.

Lemma Z_half_even (k : Z) : k + Z.quot (2 * k) 2 = 2 * k.
Proof. rewrite Z.mul_comm, Z.quot_mul by lia. lia. Qed.

(** [T] declared as [int]: [/ 2] is the truncating division of C++. *)
Instance IntBurst : BurstArith := {|
  burst := Z;
  burst_of_ticks := fun z => z;
  burst_half := fun t => Z.quot t 2;
  burst_add := Z.add;
  burst_ltb := Z.ltb;
  burst_ltb_irrefl := Z.ltb_irrefl;
  burst_ltb_asym := Z_ltb_asym;
  burst_leb_trans := Z_leb_trans;
  burst_half_even := Z_half_even
|}.

(** [<] on rationals, computed from their comparison. *)
Definition Qc_ltb (a b : Qc) : bool :=
  match (a ?= b)%Qc with Lt => true | _ => false end.

Lemma Qc_ltb_irrefl (a : Qc) : Qc_ltb a a = false.
Proof.
  unfold Qc_ltb. destruct (a ?= a)%Qc eqn:E; try reflexivity.
  apply Qclt_alt in E. by destruct (Qclt_not_eq a a).
Qed.

Lemma Qc_ltb_asym (a b : Qc) : Qc_ltb a b = true -> Qc_ltb b a = false.
Proof.
  unfold Qc_ltb. intros Hab.
  assert (Hlt : (a < b)%Qc) by (apply Qclt_alt; by destruct (a ?= b)%Qc).
  destruct (b ?= a)%Qc eqn:E; try reflexivity.
  apply Qclt_alt in E. by destruct (Qclt_not_eq a a (Qclt_trans _ _ _ Hlt E)).
Qed.

Lemma Qc_leb_trans (a b c : Qc) :
  Qc_ltb b a = false -> Qc_ltb c b = false -> Qc_ltb c a = false.
Proof.
  unfold Qc_ltb. intros Hba Hcb.
  assert (Hab : (a <= b)%Qc).
  { apply Qcnot_lt_le. intros E.
    pose proof (proj1 (Qclt_alt b a) E) as E'. by rewrite E' in Hba. }
  assert (Hbc : (b <= c)%Qc).
  { apply Qcnot_lt_le. intros E.
    pose proof (proj1 (Qclt_alt c b) E) as E'. by rewrite E' in Hcb. }
  destruct (c ?= a)%Qc eqn:E; try reflexivity.
  apply Qclt_alt in E.
  by destruct (Qcle_not_lt _ _ (Qcle_trans _ _ _ Hab Hbc)).
Qed.

Lemma Qc_half_even (k : Z) :
  (Qc_of_Z k + Qc_of_Z (2 * k) / 2)%Qc = Qc_of_Z (2 * k).
Proof. rewrite Z2Qc_inj_mul, Z2Qc_inj_2. field. done. Qed.

(** [T] declared as a real number ([double], idealised as an exact
    rational): [/ 2] is exact, and the tick count is converted after its
    own integer halving. *)
Instance RatBurst : BurstArith := {|
  burst := Qc;
  burst_of_ticks := fun z => Qc_of_Z z;
  burst_half := fun t => (t / 2)%Qc;
  burst_add := Qcplus;
  burst_ltb := Qc_ltb;
  burst_ltb_irrefl := Qc_ltb_irrefl;
  burst_ltb_asym := Qc_ltb_asym;
  burst_leb_trans := Qc_leb_trans;
  burst_half_even := Qc_half_even
|}.

(** With [T] an [int], the stored value stays in the range of a 32-bit
    [int]: the model needs no wrap-around. *)
Lemma nextT_in_int_range (c : Thread (BA := IntBurst)) :
  - 2 ^ 31 <= checkTempTick c < 2 ^ 31 ->
  - 2 ^ 31 <= checkT c < 2 ^ 31 ->
  - 2 ^ 31 <= nextT c < 2 ^ 31.
Proof.
  unfold nextT. destruct c as [id pri t ticks last st sp fp].
  cbn. change (2 ^ 31) with 2147483648. change (@burst IntBurst) with Z in t.
  intros Ha Hb.
  pose proof (Z.quot_rem' ticks 2) as Ea.
  pose proof (Z.quot_rem' t 2) as Eb.
  pose proof (Z.rem_bound_abs ticks 2 ltac:(lia)) as Ra.
  pose proof (Z.rem_bound_abs t 2 ltac:(lia)) as Rb.
  pose proof (Z.rem_nonneg ticks 2 ltac:(lia)) as Pa.
  pose proof (Z.rem_nonpos ticks 2 ltac:(lia)) as Na.
  pose proof (Z.rem_nonneg t 2 ltac:(lia)) as Pb.
  pose proof (Z.rem_nonpos t 2 ltac:(lia)) as Nb.
  lia.
Qed.

(** *** The scenarios of the specification, run on the model *)

(** FIFO in L3: A (30), B (40), C (20) are selected in admission order. *)
Example scenario_L3_fifo :
  value_of admit_and_select (kernel_three (BA := IntBurst) 30 0 40 0 20 0)
  = Some [Some 2%positive; Some 3%positive; Some 4%positive].
Proof. vm_compute. reflexivity. Qed.

(** L2 by priority: A (60), B (80), C (70) are selected as B, C, A. *)
Example scenario_L2_priority :
  value_of admit_and_select (kernel_three (BA := IntBurst) 60 0 80 0 70 0)
  = Some [Some 3%positive; Some 4%positive; Some 2%positive].
Proof. vm_compute. reflexivity. Qed.

(** L1 by predicted burst: A (T = 50), B (T = 10), C (T = 30) are
    selected as B, C, A. *)
Example scenario_L1_shortest_burst :
  value_of admit_and_select (kernel_three (BA := IntBurst) 120 50 130 10 100 30)
  = Some [Some 3%positive; Some 4%positive; Some 2%positive] /\
  value_of admit_and_select (kernel_three (BA := RatBurst) 120 50 130 10 100 30)
  = Some [Some 3%positive; Some 4%positive; Some 2%positive].
Proof. split; vm_compute; reflexivity. Qed.

(** Across bands: A (10) on L3, B (120) on L1, C (60) on L2 are
    selected as B, C, A, and nothing is left for a fourth selection. *)
Example scenario_bands :
  value_of (admit_and_select ;; FindNextToRun)%kernel
           (kernel_three (BA := IntBurst) 10 0 120 0 60 0) = Some None /\
  value_of admit_and_select (kernel_three (BA := IntBurst) 10 0 120 0 60 0)
  = Some [Some 3%positive; Some 4%positive; Some 2%positive].
Proof. split; vm_compute; reflexivity. Qed.

(** ** Facts about the sorting routine *)

Section ListSortFacts.
Context {A : Type} (lt : A -> A -> bool).
Hypothesis lt_asym : forall a b, lt a b = true -> lt b a = false.
Hypothesis le_trans : forall a b c,
  lt b a = false -> lt c b = false -> lt c a = false.

Lemma lt_le_trans x y b : lt x y = true -> lt b y = false -> lt x b = true.
Proof.
  intros Hxy Hby. destruct (lt x b) eqn:E; [reflexivity|].
  rewrite (le_trans y b x Hby E) in Hxy. discriminate.
Qed.

Lemma sort_insert_perm x l : Permutation (l ++ [x]) (sort_insert lt x l).
Proof.
  induction l as [|y l IH]; simpl; [reflexivity|].
  destruct (lt x y).
  - symmetry. apply (Permutation_cons_append (y :: l) x).
  - constructor. exact IH.
Qed.

Lemma fold_sort_perm l acc :
  Permutation (acc ++ l) (fold_left (fun a x => sort_insert lt x a) l acc).
Proof.
  revert acc. induction l as [|x l IH]; intros acc; simpl.
  - rewrite app_nil_r. reflexivity.
  - rewrite <- IH, <- sort_insert_perm, <- app_assoc. reflexivity.
Qed.

Lemma list_sort_perm l : Permutation l (list_sort lt l).
Proof. exact (fold_sort_perm l []). Qed.

Lemma sort_insert_Forall (P : A -> Prop) x l :
  P x -> Forall P l -> Forall P (sort_insert lt x l).
Proof.
  intros Hx Hl. induction Hl as [|y l Hy Hl IH]; simpl.
  - constructor; [exact Hx | constructor].
  - destruct (lt x y); repeat constructor; assumption.
Qed.

Lemma sort_insert_ascending x l :
  ascending lt l -> ascending lt (sort_insert lt x l).
Proof.
  unfold ascending. induction 1 as [|y l Hl IH Hy]; simpl.
  - constructor; constructor.
  - destruct (lt x y) eqn:E.
    + constructor; [constructor; assumption|].
      constructor; [exact (lt_asym _ _ E)|].
      eapply Forall_impl; [|exact Hy].
      intros b Hb. simpl in Hb. apply lt_asym. exact (lt_le_trans _ _ _ E Hb).
    + constructor; [exact IH|].
      apply sort_insert_Forall; assumption.
Qed.

Lemma fold_sort_ascending l acc :
  ascending lt acc ->
  ascending lt (fold_left (fun a x => sort_insert lt x a) l acc).
Proof.
  revert acc. induction l as [|x l IH]; intros acc Hacc; simpl.
  - exact Hacc.
  - apply IH, sort_insert_ascending, Hacc.
Qed.

Lemma list_sort_ascending l : ascending lt (list_sort lt l).
Proof. apply fold_sort_ascending. constructor. Qed.






End ListSortFacts.

(** ** Facts about the model *)

Section SchedulerFacts.
Context {BA : BurstArith}.
Local Open Scope kernel_scope.

(** *** The comparators are strict weak orders *)

Lemma cmpL1_asym a b :
  through cmpL1 a b = true -> through cmpL1 b a = false.
Proof. unfold through, cmpL1. apply burst_ltb_asym. Qed.

Lemma cmpL1_le_trans a b c :
  through cmpL1 b a = false -> through cmpL1 c b = false ->
  through cmpL1 c a = false.
Proof. unfold through, cmpL1. apply burst_leb_trans. Qed.


Lemma cmpL2_le_trans a b c :
  through cmpL2 b a = false -> through cmpL2 c b = false ->
  through cmpL2 c a = false.
Proof. unfold through, cmpL2. rewrite !Z.gtb_ltb. lia. Qed.

(** *** Reading through the pointers of a queue *)

Lemma deref_all_live h q :
  forallb (live h) q = true -> exists pts, deref_all h q = Some pts.
Proof.
  induction q as [|p q IH]; simpl; [eauto|].
  intros H. apply andb_true_iff in H as [Hp Hq].
  destruct (IH Hq) as [pts Hpts]. unfold live in Hp.
  destruct (h !! p) as [t|]; [|discriminate].
  rewrite Hpts. eauto.
Qed.

Lemma deref_all_points h q pts :
  deref_all h q = Some pts -> map fst pts = q /\ Forall (points_to h) pts.
Proof.
  revert pts. induction q as [|p q IH]; simpl; intros pts H.
  - injection H as <-. split; constructor.
  - destruct (h !! p) as [t|] eqn:Hp; [|discriminate].
    destruct (deref_all h q) as [r|]; [|discriminate].
    injection H as <-. destruct (IH r eq_refl) as [Hfst Hall].
    split; [simpl; congruence|]. constructor; assumption.
Qed.

Lemma deref_all_of_points h pts :
  Forall (points_to h) pts -> deref_all h (map fst pts) = Some pts.
Proof.
  induction 1 as [|[p t] pts Hp Hall IH]; simpl; [reflexivity|].
  unfold points_to in Hp. simpl in Hp. rewrite Hp, IH. reflexivity.
Qed.

Lemma live_closed_app h q p :
  forallb (live h) q = true -> live h p = true ->
  forallb (live h) (q ++ [p]) = true.
Proof.
  intros Hq Hp. rewrite forallb_app, Hq. simpl. rewrite Hp. reflexivity.
Qed.

(** *** Sorting a queue *)

Lemma list_sort_points h cmp pts :
  Forall (points_to h) pts ->
  Forall (points_to h) (list_sort (through cmp) pts).
Proof.
  intros H. eapply Permutation_Forall; [apply list_sort_perm | exact H].
Qed.

Lemma ordered_of_ascending h cmp pts :
  Forall (points_to h) pts ->
  ascending (through cmp) pts ->
  ordered cmp h (map fst pts).
Proof.
  unfold ascending, ordered. intros Hpts Hs.
  induction Hs as [|a l Hl IH Ha]; simpl; [constructor|].
  inversion Hpts as [|? ? Hpa Hpl]; subst.
  constructor; [exact (IH Hpl)|].
  apply Forall_map. rewrite Forall_forall in Ha, Hpl |- *.
  intros b Hb t t' Ht Ht'.
  pose proof (Hpl b Hb) as Hpb. unfold points_to in Hpa, Hpb.
  rewrite Hpa in Ht. rewrite Hpb in Ht'.
  injection Ht as <-. injection Ht' as <-. exact (Ha b Hb).
Qed.


Lemma orderedb_spec cmp (h : gmap positive Thread) q :
  orderedb cmp h q = true <-> ordered cmp h q.
Proof.
  unfold ordered. induction q as [|p q IH]; simpl.
  - split; [constructor|reflexivity].
  - rewrite andb_true_iff, IH, forallb_forall. split.
    + intros [Hp Hq]. constructor; [exact Hq|].
      apply Forall_forall. intros p' Hin t t' Ht Ht'.
      specialize (Hp p' Hin). rewrite Ht, Ht' in Hp.
      apply negb_true_iff in Hp. exact Hp.
    + intros Hs. apply StronglySorted_inv in Hs as [Hq Hp].
      split; [|exact Hq]. rewrite Forall_forall in Hp.
      intros p' Hin. specialize (Hp p' Hin).
      destruct (h !! p) as [t|]; [|reflexivity].
      destruct (h !! p') as [t'|]; [|reflexivity].
      rewrite (Hp t t' eq_refl eq_refl). reflexivity.
Qed.


(** Only the keys of the threads on a queue matter for its order. *)
Lemma ordered_same_keys {K} (key : Thread -> K) (ltK : K -> K -> bool)
    cmp (h h' : gmap positive Thread) q :
  (forall a b, cmp a b = ltK (key a) (key b)) ->
  (forall p, In p q -> key <$> h' !! p = key <$> h !! p) ->
  ordered cmp h q -> ordered cmp h' q.
Proof.
  unfold ordered. intros Hcmp Hkeys Hs.
  induction Hs as [|p l Hl IH Hp]; [constructor|].
  constructor.
  - apply IH. intros p0 Hin. apply Hkeys. right. exact Hin.
  - rewrite Forall_forall in Hp |- *. intros p' Hin t t' Ht Ht'.
    pose proof (Hkeys p (or_introl eq_refl)) as Kp.
    pose proof (Hkeys p' (or_intror Hin)) as Kp'.
    rewrite Ht in Kp. rewrite Ht' in Kp'.
    destruct (h !! p) as [t0|] eqn:Ht0; [|discriminate].
    destruct (h !! p') as [t0'|] eqn:Ht0'; [|discriminate].
    simpl in Kp, Kp'. injection Kp as Kp. injection Kp' as Kp'.
    rewrite Hcmp, Kp, Kp', <- Hcmp.
    exact (Hp p' Hin t0 t0' eq_refl Ht0').
Qed.

(** *** Running the primitive steps *)

Lemma insert_as_alter (f : Thread -> Thread) p t (h : gmap positive Thread) :
  h !! p = Some t -> <[p := f t]> h = alter f p h.
Proof.
  intros Hp. apply map_eq. intros i.
  rewrite lookup_insert, lookup_alter.
  destruct (decide (p = i)) as [->|]; [rewrite Hp|]; reflexivity.
Qed.

Lemma update_run p f k t :
  heap k !! p = Some t ->
  update p f k = Done (tt, with_heap (alter f p (heap k)) k).
Proof.
  intros Hp. unfold update, bind, deref, modify. rewrite Hp.
  rewrite (insert_as_alter f p t _ Hp). reflexivity.
Qed.

Lemma live_alter f p (h : gmap positive Thread) q :
  live (alter f p h) q = live h q.
Proof.
  unfold live. rewrite lookup_alter.
  destruct (decide (p = q)) as [->|]; [|reflexivity].
  destruct (h !! q); reflexivity.
Qed.

Lemma forallb_live_alter f p (h : gmap positive Thread) q :
  forallb (live (alter f p h)) q = forallb (live h) q.
Proof.
  induction q as [|x q IH]; simpl; [reflexivity|].
  rewrite live_alter, IH. reflexivity.
Qed.

Lemma live_admitted_heap thread k q :
  live (admitted_heap thread k) q = live (heap k) q.
Proof.
  unfold admitted_heap. destruct (bool_decide _); rewrite ?live_alter; reflexivity.
Qed.

Lemma live_Some (h : gmap positive Thread) p :
  live h p = true -> exists t, h !! p = Some t.
Proof. unfold live. destruct (h !! p); [eauto|discriminate]. Qed.

Lemma bind_Done {A B} (m : M A) (f : A -> M B) k a k1 :
  m k = Done (a, k1) -> bind m f k = f a k1.
Proof. intros H. unfold bind. rewrite H. reflexivity. Qed.

Lemma deref_run p k t : heap k !! p = Some t -> deref p k = Done (t, k).
Proof. intros H. unfold deref. rewrite H. reflexivity. Qed.

Lemma sorted_by_run cmp q k pts :
  deref_all (heap k) q = Some pts ->
  sorted_by cmp q k = Done (map fst (list_sort (through cmp) pts), k).
Proof.
  intros H. unfold sorted_by, bind, gets. rewrite H. reflexivity.
Qed.

Lemma admitted_heap_thread thread k th :
  heap k !! thread = Some th ->
  admitted_heap thread k !! thread = Some (setStatus READY th).
Proof.
  intros H. unfold admitted_heap. case_bool_decide.
  - rewrite lookup_alter_ne by done. rewrite lookup_alter_eq, H. reflexivity.
  - rewrite lookup_alter_eq, H. reflexivity.
Qed.

(** The first half of [ReadyToRun]: the status and predictor updates. *)
Lemma ReadyToRun_updates thread k th (rest : Thread -> M unit) :
  intLevel k = IntOff -> heap k !! thread = Some th ->
  live (heap k) (currentThread k) = true ->
  (lvl <- gets intLevel ;;
   ASSERT (isIntOff lvl) AssertIntOff ;;
   update thread (setStatus READY) ;;
   cur <- gets currentThread ;;
   (if bool_decide (cur <> thread)
    then update cur (fun c => setT (nextT c) c)
    else ret tt) ;;
   th <- deref thread ;;
   rest th) k
  = rest (setStatus READY th) (with_heap (admitted_heap thread k) k).
Proof.
  intros Hi Hth Hc. apply live_Some in Hc as [c Hc].
  rewrite (bind_Done (gets intLevel) _ k _ _ eq_refl). rewrite Hi.
  rewrite (bind_Done _ _ k _ _ eq_refl).
  rewrite (bind_Done _ _ k _ _ (update_run _ _ _ _ Hth)).
  rewrite (bind_Done (gets currentThread) _ _ _ _ eq_refl).
  pose proof (admitted_heap_thread thread k th Hth) as Hadm.
  unfold admitted_heap in *. cbn [currentThread with_heap].
  case_bool_decide as Hne.
  - erewrite bind_Done; cycle 1.
    { eapply update_run. cbn [heap with_heap].
      rewrite lookup_alter_ne by done. exact Hc. }
    erewrite bind_Done; cycle 1.
    { apply deref_run. cbn [heap with_heap]. exact Hadm. }
    reflexivity.
  - rewrite (bind_Done (ret tt) _ _ _ _ eq_refl).
    erewrite bind_Done; cycle 1.
    { apply deref_run. cbn [heap with_heap]. exact Hadm. }
    reflexivity.
Qed.

Lemma heap_closed_parts k :
  heap_closed k = true ->
  live (heap k) (currentThread k) = true /\
  forallb (live (heap k)) (L1Queue k) = true /\
  forallb (live (heap k)) (L2Queue k) = true /\
  forallb (live (heap k)) (L3Queue k) = true.
Proof.
  unfold heap_closed. rewrite !andb_true_iff. tauto.
Qed.

Lemma deref_all_admitted thread k th q :
  heap k !! thread = Some th ->
  forallb (live (heap k)) q = true ->
  exists pts, deref_all (admitted_heap thread k) (q ++ [thread]) = Some pts.
Proof.
  intros Hth Hq. apply deref_all_live, live_closed_app.
  - rewrite <- Hq. clear Hq. induction q as [|x q IH]; simpl; [reflexivity|].
    rewrite live_admitted_heap, IH. reflexivity.
  - rewrite live_admitted_heap. unfold live. rewrite Hth. reflexivity.
Qed.

(** [ReadyToRun] succeeds on a closed heap and does what [admits] says. *)
Lemma ReadyToRun_admits thread k th :
  intLevel k = IntOff -> heap k !! thread = Some th ->
  heap_closed k = true ->
  exists k', ReadyToRun thread k = Done (tt, k') /\ admits thread th k k'.
Proof.
  intros Hi Hth Hcl.
  destruct (heap_closed_parts k Hcl) as (Hc & H1 & H2 & H3).
  unfold ReadyToRun. rewrite (ReadyToRun_updates thread k th) by assumption.
  rewrite (bind_Done (gets totalTicks) _ _ _ _ eq_refl).
  unfold admits, band. cbn [checkPriority setStatus totalTicks with_heap].
  destruct (checkPriority th <? 50) eqn:E50;
    [|destruct (checkPriority th <? 100) eqn:E100].
  - eexists. split; [reflexivity|]. unfold same_kernel_context. cbn. tauto.
  - destruct (deref_all_admitted thread k th _ Hth H2) as [pts Hpts].
    rewrite (bind_Done _ _ _ _ _ eq_refl).
    rewrite (bind_Done _ _ _ _ _ eq_refl).
    rewrite (bind_Done (gets L2Queue) _ _ _ _ eq_refl).
    erewrite bind_Done; cycle 1.
    { apply sorted_by_run. cbn. exact Hpts. }
    rewrite (bind_Done _ _ _ _ _ eq_refl).
    rewrite (bind_Done (gets currentThread) _ _ _ _ eq_refl).
    cbn [currentThread with_L2Queue with_output with_heap].
    unfold sorted_from, same_kernel_context.
    case_bool_decide; (eexists; split; [reflexivity|]); cbn;
      repeat split; eauto.
  - destruct (deref_all_admitted thread k th _ Hth H1) as [pts Hpts].
    rewrite (bind_Done _ _ _ _ _ eq_refl).
    rewrite (bind_Done _ _ _ _ _ eq_refl).
    rewrite (bind_Done (gets L1Queue) _ _ _ _ eq_refl).
    erewrite bind_Done; cycle 1.
    { apply sorted_by_run. cbn. exact Hpts. }
    rewrite (bind_Done _ _ _ _ _ eq_refl).
    rewrite (bind_Done (gets currentThread) _ _ _ _ eq_refl).
    cbn [currentThread with_L1Queue with_output with_heap].
    unfold sorted_from, same_kernel_context.
    case_bool_decide; (eexists; split; [reflexivity|]); cbn;
      repeat split; eauto.
Qed.

(** *** Running the selection routines *)

Lemma FindNextToRun_none k :
  intLevel k = IntOff ->
  L1Queue k = [] -> L2Queue k = [] -> L3Queue k = [] ->
  FindNextToRun k = Done (None, k).
Proof.
  intros Hi E1 E2 E3. unfold FindNextToRun, bind, gets, ASSERT.
  cbn. rewrite Hi. cbn. rewrite E1, E2, E3. reflexivity.
Qed.

Lemma FindNextToRun_L3 k p q t :
  intLevel k = IntOff ->
  L1Queue k = [] -> L2Queue k = [] -> L3Queue k = p :: q ->
  heap k !! p = Some t ->
  FindNextToRun k
  = Done (Some p,
          with_output (output k ++ [Removed (totalTicks k) (getID t) L3])
            (with_L3Queue q (with_alarmStat true k))).
Proof.
  intros Hi E1 E2 E3 Hp.
  unfold FindNextToRun, bind, gets, ASSERT, modify, deref, printf, ret.
  cbn. rewrite Hi. cbn. rewrite E1, E2, E3. cbn. rewrite Hp. reflexivity.
Qed.

Lemma FindNextToRun_L2 k p q t :
  intLevel k = IntOff ->
  L1Queue k = [] -> L2Queue k = p :: q ->
  heap k !! p = Some t ->
  FindNextToRun k
  = Done (Some p,
          with_output (output k ++ [Removed (totalTicks k) (getID t) L2])
            (with_L2Queue q (with_alarmStat false k))).
Proof.
  intros Hi E1 E2 Hp.
  unfold FindNextToRun, bind, gets, ASSERT, modify, deref, printf, ret.
  cbn. rewrite Hi. cbn. rewrite E1, E2. cbn. rewrite Hp. reflexivity.
Qed.

Lemma FindNextToRun_L1 k p q t :
  intLevel k = IntOff ->
  L1Queue k = p :: q ->
  heap k !! p = Some t ->
  FindNextToRun k
  = Done (Some p,
          with_output (output k ++ [Removed (totalTicks k) (getID t) L1])
            (with_L1Queue q (with_alarmStat false k))).
Proof.
  intros Hi E1 Hp.
  unfold FindNextToRun, bind, gets, ASSERT, modify, deref, printf, ret.
  cbn. rewrite Hi. cbn. rewrite E1. cbn. rewrite Hp. reflexivity.
Qed.

(** The thread at the head of the highest non-empty queue. *)
Lemma PureFindNext_run k :
  intLevel k = IntOff ->
  PureFindNext k
  = Done (match L1Queue k, L2Queue k, L3Queue k with
          | p :: _, _, _ => Some p
          | [], p :: _, _ => Some p
          | [], [], p :: _ => Some p
          | [], [], [] => None
          end, k).
Proof.
  intros Hi. unfold PureFindNext, bind, gets, ASSERT. cbn. rewrite Hi. cbn.
  destruct (L1Queue k), (L2Queue k), (L3Queue k); reflexivity.
Qed.

Lemma routine_IntOn_aborts k :
  intLevel k = IntOn ->
  FindNextToRun k = Abort AssertIntOff /\
  PureFindNext k = Abort AssertIntOff /\
  forall thread, ReadyToRun thread k = Abort AssertIntOff.
Proof.
  intros Hi. unfold FindNextToRun, PureFindNext, ReadyToRun, bind, gets, ASSERT.
  cbn. rewrite Hi. cbn. auto.
Qed.

Lemma head_live (h : gmap positive Thread) p q :
  forallb (live h) (p :: q) = true -> exists t, h !! p = Some t.
Proof.
  simpl. intros H. apply andb_true_iff in H as [H _]. exact (live_Some _ _ H).
Qed.

(** What [FindNextToRun] returns and leaves behind, queue by queue. *)
Lemma FindNextToRun_run k :
  intLevel k = IntOff -> heap_closed k = true ->
  exists r k', FindNextToRun k = Done (r, k') /\
    heap k' = heap k /\ currentThread k' = currentThread k /\
    toBeDestroyed k' = toBeDestroyed k /\
    enablePreemptOnce k' = enablePreemptOnce k /\
    match L1Queue k, L2Queue k, L3Queue k with
    | p :: q, q2, q3 =>
        r = Some p /\ L1Queue k' = q /\ L2Queue k' = q2 /\ L3Queue k' = q3
    | [], p :: q, q3 =>
        r = Some p /\ L1Queue k' = [] /\ L2Queue k' = q /\ L3Queue k' = q3
    | [], [], p :: q =>
        r = Some p /\ L1Queue k' = [] /\ L2Queue k' = [] /\ L3Queue k' = q
    | [], [], [] => r = None /\ k' = k
    end.
Proof.
  intros Hi Hcl. destruct (heap_closed_parts k Hcl) as (_ & H1 & H2 & H3).
  destruct (L1Queue k) as [|p1 q1] eqn:E1.
  - destruct (L2Queue k) as [|p2 q2] eqn:E2.
    + destruct (L3Queue k) as [|p3 q3] eqn:E3.
      * exists None, k. rewrite FindNextToRun_none by assumption. auto 10.
      * destruct (head_live _ _ _ H3) as [t Ht].
        do 2 eexists. rewrite (FindNextToRun_L3 k p3 q3 t) by assumption.
        split; [reflexivity|]. cbn. auto 10.
    + destruct (head_live _ _ _ H2) as [t Ht].
      do 2 eexists. rewrite (FindNextToRun_L2 k p2 q2 t) by assumption.
      split; [reflexivity|]. cbn. auto 10.
  - destruct (head_live _ _ _ H1) as [t Ht].
    do 2 eexists. rewrite (FindNextToRun_L1 k p1 q1 t) by assumption.
    split; [reflexivity|]. cbn. auto 10.
Qed.

(** *** Running the dispatcher *)

Lemma Run_dispatch_pending next k p :
  intLevel k = IntOff -> toBeDestroyed k = Some p ->
  Run_dispatch next true k = Abort AssertToBeDestroyedNull.
Proof.
  intros Hi Hd. unfold Run_dispatch, bind, gets, ASSERT.
  cbn. rewrite Hi. cbn. rewrite Hd. reflexivity.
Qed.


(** Inversion of a successful run, step by step. *)

Lemma bind_inv {A B} (m : M A) (f : A -> M B) k b k' :
  bind m f k = Done (b, k') ->
  exists a k1, m k = Done (a, k1) /\ f a k1 = Done (b, k').
Proof.
  unfold bind. destruct (m k) as [[a k1]|e]; [eauto|discriminate].
Qed.

Lemma gets_inv {A} (f : Kernel -> A) k a k' :
  gets f k = Done (a, k') -> a = f k /\ k' = k.
Proof. unfold gets. intros H. injection H as <- <-. auto. Qed.

Lemma ret_inv {A} (x : A) k a k' :
  ret x k = Done (a, k') -> a = x /\ k' = k.
Proof. unfold ret. intros H. injection H as <- <-. auto. Qed.

Lemma ASSERT_inv b e k u k' :
  ASSERT b e k = Done (u, k') -> b = true /\ k' = k.
Proof.
  unfold ASSERT. destruct b; cbn; intros H; [|discriminate].
  injection H as <-. auto.
Qed.

Lemma modify_inv f k u k' : modify f k = Done (u, k') -> k' = f k.
Proof. unfold modify. intros H. congruence. Qed.

Lemma deref_inv p k t k' :
  deref p k = Done (t, k') -> heap k !! p = Some t /\ k' = k.
Proof.
  unfold deref. destruct (heap k !! p); intros H; [|discriminate].
  injection H as <- <-. auto.
Qed.

Lemma update_inv p f k u k' :
  update p f k = Done (u, k') ->
  exists t, heap k !! p = Some t /\
            k' = with_heap (alter f p (heap k)) k.
Proof.
  intros H. unfold update, bind, deref, modify in H.
  destruct (heap k !! p) as [t|] eqn:Hp; [|discriminate].
  exists t. split; [reflexivity|].
  rewrite <- (insert_as_alter f p t _ Hp). congruence.
Qed.

Lemma printf_inv e k u k' :
  printf e k = Done (u, k') -> k' = with_output (output k ++ [e]) k.
Proof. intros H. exact (modify_inv _ _ _ _ H). Qed.

Lemma call_inv c k u k' :
  call c k = Done (u, k') -> k' = with_machine (machine k ++ [c]) k.
Proof. intros H. exact (modify_inv _ _ _ _ H). Qed.

Lemma CheckOverflow_inv p k u k' :
  CheckOverflow p k = Done (u, k') -> k' = k.
Proof.
  intros H. unfold CheckOverflow in H.
  apply bind_inv in H as (t & k1 & H1 & H2).
  apply deref_inv in H1 as [_ ->]. apply ASSERT_inv in H2 as [_ ->].
  reflexivity.
Qed.

Lemma Run_dispatch_inv next k old k' :
  Run_dispatch next true k = Done (old, k') ->
  intLevel k = IntOff /\ toBeDestroyed k = None /\
  old = currentThread k /\ toBeDestroyed k' = Some (currentThread k) /\
  currentThread k' = next.
Proof.
  intros H. unfold Run_dispatch in H.
  apply bind_inv in H as (old0 & k1 & H1 & H). apply gets_inv in H1 as [-> ->].
  apply bind_inv in H as (lvl & k1 & H1 & H). apply gets_inv in H1 as [-> ->].
  apply bind_inv in H as (? & k1 & H1 & H). apply ASSERT_inv in H1 as [Hi ->].
  apply bind_inv in H as (? & k1 & H1 & H).
  apply bind_inv in H1 as (d & k2 & H1 & H2). apply gets_inv in H1 as [-> ->].
  apply bind_inv in H2 as (? & k2 & H2 & H3). apply ASSERT_inv in H2 as [Hd ->].
  apply modify_inv in H3 as ->.
  apply bind_inv in H as (c & k1 & H1 & H). apply deref_inv in H1 as [Hc ->].
  apply bind_inv in H as (? & k1 & H1 & H).
  assert (Hk1 : toBeDestroyed k1 = Some (currentThread k)).
  { destruct (space c).
    - apply bind_inv in H1 as (? & k2 & H1 & H2).
      apply call_inv in H1 as ->. apply call_inv in H2 as ->. reflexivity.
    - apply ret_inv in H1 as [_ ->]. reflexivity. }
  apply bind_inv in H as (? & k2 & H2 & H). apply CheckOverflow_inv in H2 as ->.
  apply bind_inv in H as (? & k2 & H2 & H). apply modify_inv in H2 as ->.
  apply bind_inv in H as (? & k2 & H2 & H).
  apply update_inv in H2 as (n & Hn & ->).
  apply bind_inv in H as (tick & k2 & H2 & H). apply gets_inv in H2 as [-> ->].
  apply bind_inv in H as (n' & k2 & H2 & H). apply deref_inv in H2 as [Hn' ->].
  apply bind_inv in H as (? & k2 & H2 & H). apply printf_inv in H2 as ->.
  apply bind_inv in H as (o & k2 & H2 & H). apply deref_inv in H2 as [Ho ->].
  apply bind_inv in H as (? & k2 & H2 & H). apply printf_inv in H2 as ->.
  apply bind_inv in H as (? & k2 & H2 & H).
  apply update_inv in H2 as (o1 & Ho1 & ->).
  apply bind_inv in H as (? & k2 & H2 & H).
  apply update_inv in H2 as (o2 & Ho2 & ->).
  apply ret_inv in H as [-> ->]. cbn.
  apply bool_decide_eq_true in Hd.
  destruct (intLevel k); [|discriminate]. auto.
Qed.

Lemma lookup_alter_live f p (h : gmap positive Thread) q t :
  h !! q = Some t -> exists t', alter f p h !! q = Some t'.
Proof.
  intros H. rewrite lookup_alter.
  destruct (decide (p = q)) as [->|]; rewrite H; cbn; eauto.
Qed.

(** The first half of [Run] succeeds when its assertions hold and both
    threads are live. *)
Lemma Run_dispatch_ok next finishing k c n :
  intLevel k = IntOff ->
  (finishing = true -> toBeDestroyed k = None) ->
  heap k !! currentThread k = Some c -> fencepost c = true ->
  heap k !! next = Some n ->
  exists k', Run_dispatch next finishing k = Done (currentThread k, k').
Proof.
  intros Hi Hd Hc Hf Hn. unfold Run_dispatch.
  rewrite (bind_Done (gets currentThread) _ k _ _ eq_refl).
  rewrite (bind_Done (gets intLevel) _ k _ _ eq_refl). rewrite Hi.
  rewrite (bind_Done _ _ k _ _ eq_refl).
  set (k1 := if finishing
             then with_toBeDestroyed (Some (currentThread k)) k else k).
  assert (Hh1 : heap k1 = heap k) by (unfold k1; destruct finishing; reflexivity).
  erewrite (bind_Done _ _ k tt k1); cycle 1.
  { unfold k1. destruct finishing; [|reflexivity].
    rewrite (bind_Done (gets toBeDestroyed) _ k _ _ eq_refl).
    rewrite (Hd eq_refl). reflexivity. }
  erewrite bind_Done; cycle 1.
  { apply deref_run. rewrite Hh1. exact Hc. }
  set (k2 := if space c
             then with_machine (machine k1 ++ [SaveUserState (currentThread k)]
                                           ++ [SpaceSaveState (currentThread k)]) k1
             else k1).
  assert (Hh2 : heap k2 = heap k).
  { unfold k2. destruct (space c); cbn; exact Hh1. }
  erewrite (bind_Done _ _ k1 tt k2); cycle 1.
  { unfold k2. destruct (space c); [|reflexivity].
    unfold bind, call, modify. cbn. rewrite <- app_assoc. reflexivity. }
  erewrite (bind_Done _ _ k2 tt k2); cycle 1.
  { unfold CheckOverflow. erewrite bind_Done; cycle 1.
    { apply deref_run. rewrite Hh2. exact Hc. }
    rewrite Hf. reflexivity. }
  rewrite (bind_Done _ _ k2 _ _ eq_refl).
  erewrite bind_Done; cycle 1.
  { eapply update_run. cbn. rewrite Hh2. exact Hn. }
  rewrite (bind_Done (gets totalTicks) _ _ _ _ eq_refl).
  erewrite bind_Done; cycle 1.
  { apply deref_run. cbn. rewrite lookup_alter_eq, Hh2, Hn. reflexivity. }
  rewrite (bind_Done _ _ _ _ _ eq_refl).
  destruct (lookup_alter_live (setStatus RUNNING) next _ _ _ Hc) as [o Ho].
  erewrite bind_Done; cycle 1.
  { apply deref_run. cbn. rewrite Hh2. exact Ho. }
  rewrite (bind_Done _ _ _ _ _ eq_refl).
  erewrite bind_Done; cycle 1.
  { eapply update_run. cbn. rewrite Hh2. exact Ho. }
  destruct (lookup_alter_live
              (setLastExecTick (totalTicks k2)) (currentThread k) _ _ _ Ho)
    as [o' Ho'].
  erewrite bind_Done; cycle 1.
  { eapply update_run. cbn. rewrite Hh2. exact Ho'. }
  eexists. reflexivity.
Qed.

Lemma Run_dispatch_assert_holds next k :
  toBeDestroyed k = None ->
  Run_dispatch next true k <> Abort AssertToBeDestroyedNull.
Proof.
  intros Hd.
  unfold Run_dispatch, CheckOverflow, update, bind, gets, ASSERT, modify,
    deref, printf, call, ret, panic.
  cbn. destruct (intLevel k); cbn; [|discriminate].
  rewrite Hd. rewrite bool_decide_eq_true_2 by reflexivity. cbn.
  repeat match goal with
         | |- context [match ?x with _ => _ end] =>
             lazymatch x with
             | context [match _ with _ => _ end] => fail
             | _ => destruct x eqn:?; cbn
             end
         | |- context [if ?x then _ else _] =>
             lazymatch x with
             | context [match _ with _ => _ end] => fail
             | _ => destruct x eqn:?; cbn
             end
         end; discriminate.
Qed.

(** *** Running the reclamation *)

Lemma CheckToBeDestroyed_none k :
  toBeDestroyed k = None -> CheckToBeDestroyed k = Done (tt, k).
Proof.
  intros Hd. unfold CheckToBeDestroyed, bind, gets. cbn. rewrite Hd. reflexivity.
Qed.

Lemma CheckToBeDestroyed_some k p t :
  toBeDestroyed k = Some p -> heap k !! p = Some t ->
  CheckToBeDestroyed k
  = Done (tt, with_toBeDestroyed None (with_heap (delete p (heap k)) k)).
Proof.
  intros Hd Hp.
  unfold CheckToBeDestroyed, delete_thread, bind, gets, deref, modify.
  cbn. rewrite Hd. cbn. rewrite Hp. reflexivity.
Qed.

Lemma CheckToBeDestroyed_dangling k p :
  toBeDestroyed k = Some p -> heap k !! p = None ->
  CheckToBeDestroyed k = Abort InvalidPointer.
Proof.
  intros Hd Hp.
  unfold CheckToBeDestroyed, delete_thread, bind, gets, deref, modify.
  cbn. rewrite Hd. cbn. rewrite Hp. reflexivity.
Qed.

(** *** What a sorted queue looks like *)

Lemma sorted_from_perm cmp h q q' :
  sorted_from cmp h q q' -> Permutation q q'.
Proof.
  intros (pts & Hpts & ->). destruct (deref_all_points _ _ _ Hpts) as [<- _].
  apply Permutation_map, list_sort_perm.
Qed.

Lemma sorted_from_ordered cmp h q q' :
  (forall a b, through cmp a b = true -> through cmp b a = false) ->
  (forall a b c, through cmp b a = false -> through cmp c b = false ->
                 through cmp c a = false) ->
  sorted_from cmp h q q' -> ordered cmp h q'.
Proof.
  intros Hasym Htrans (pts & Hpts & ->).
  destruct (deref_all_points _ _ _ Hpts) as [_ Hall].
  apply ordered_of_ascending.
  - apply list_sort_points, Hall.
  - apply list_sort_ascending; assumption.
Qed.


(** *** The heap after an admission *)

Lemma admitted_heap_priority thread k p :
  checkPriority <$> admitted_heap thread k !! p
  = checkPriority <$> heap k !! p.
Proof.
  unfold admitted_heap. case_bool_decide; rewrite ?lookup_alter;
    repeat case_decide; subst; try congruence;
    repeat match goal with
           | |- context [heap k !! ?x] => destruct (heap k !! x)
           end; reflexivity.
Qed.

Lemma admitted_heap_status thread k th :
  heap k !! thread = Some th ->
  status <$> admitted_heap thread k !! thread = Some READY.
Proof.
  intros H. rewrite (admitted_heap_thread thread k th H). reflexivity.
Qed.

Lemma admitted_heap_T_current thread k c :
  currentThread k <> thread -> heap k !! currentThread k = Some c ->
  checkT <$> admitted_heap thread k !! currentThread k = Some (nextT c).
Proof.
  intros Hne Hc. unfold admitted_heap.
  rewrite bool_decide_eq_true_2 by exact Hne.
  rewrite lookup_alter_eq, lookup_alter_ne by done. rewrite Hc. reflexivity.
Qed.

Lemma admitted_heap_T_other thread k p :
  p <> currentThread k \/ currentThread k = thread ->
  checkT <$> admitted_heap thread k !! p = checkT <$> heap k !! p.
Proof.
  intros Hp. unfold admitted_heap. case_bool_decide as Hne.
  - destruct Hp as [Hp|Hp]; [|contradiction].
    rewrite lookup_alter_ne by done. rewrite lookup_alter.
    case_decide; subst;
      match goal with
      | |- context [heap k !! ?x] => destruct (heap k !! x)
      end; reflexivity.
  - rewrite lookup_alter.
    case_decide; subst;
      match goal with
      | |- context [heap k !! ?x] => destruct (heap k !! x)
      end; reflexivity.
Qed.
End SchedulerFacts.

(** ** The properties of the specification *)

Section Claims.
Context {BA : BurstArith}.
Local Open Scope kernel_scope.

(** C1: with interrupts off, [FindNextToRun] returns the head of the
    highest non-empty queue in the order L1, L2, L3, takes it off that
    queue, and returns [NULL] exactly when all three queues are
    empty. *)
Theorem FindNextToRun_selects_highest_band k :
  intLevel k = IntOff -> heap_closed k = true ->
  exists r k', FindNextToRun k = Done (r, k') /\
    match L1Queue k, L2Queue k, L3Queue k with
    | p :: q, _, _ => r = Some p /\ L1Queue k' = q
    | [], p :: q, _ => r = Some p /\ L2Queue k' = q
    | [], [], p :: q => r = Some p /\ L3Queue k' = q
    | [], [], [] => r = None
    end /\
    (r = None <-> L1Queue k = [] /\ L2Queue k = [] /\ L3Queue k = []).
Proof.
  intros Hi Hcl.
  destruct (FindNextToRun_run k Hi Hcl) as (r & k' & Hrun & _ & _ & _ & _ & Hq).
  exists r, k'. split; [exact Hrun|].
  destruct (L1Queue k) as [|p1 q1]; [destruct (L2Queue k) as [|p2 q2];
    [destruct (L3Queue k) as [|p3 q3]|]|].
  - destruct Hq as [-> _]. tauto.
  - destruct Hq as (-> & _ & _ & ->).
    split; [auto|]. split; [discriminate|]. intros (_ & _ & ?). discriminate.
  - destruct Hq as (-> & _ & -> & _).
    split; [auto|]. split; [discriminate|]. intros (_ & ? & _). discriminate.
  - destruct Hq as (-> & -> & _ & _).
    split; [auto|]. split; [discriminate|]. intros (? & _ & _). discriminate.
Qed.

(** C6: [Run] with [finishing] set asserts that [toBeDestroyed] is
    [NULL] and then stores the old current thread there: a run that
    gets past the assertion started with an empty slot and ends with
    the old thread in it; with a pending thread the assertion stops
    the kernel instead of overwriting it; with an empty slot that
    assertion never fails, and the dispatch goes through when the
    other assertions hold and both threads are live. *)
Theorem Run_finishing_marks_old_thread next k :
  (forall old k', Run_dispatch next true k = Done (old, k') ->
     toBeDestroyed k = None /\ old = currentThread k /\
     toBeDestroyed k' = Some (currentThread k)) /\
  (forall p, intLevel k = IntOff -> toBeDestroyed k = Some p ->
     Run_dispatch next true k = Abort AssertToBeDestroyedNull) /\
  (toBeDestroyed k = None ->
     Run_dispatch next true k <> Abort AssertToBeDestroyedNull) /\
  (forall c n, intLevel k = IntOff -> toBeDestroyed k = None ->
     heap k !! currentThread k = Some c -> fencepost c = true ->
     heap k !! next = Some n ->
     exists k', Run_dispatch next true k = Done (currentThread k, k') /\
                toBeDestroyed k' = Some (currentThread k)).
Proof.
  split; [|split; [|split]].
  - intros old k' H. apply Run_dispatch_inv in H. tauto.
  - intros p Hi Hd. exact (Run_dispatch_pending next k p Hi Hd).
  - apply Run_dispatch_assert_holds.
  - intros c n Hi Hd Hc Hf Hn.
    destruct (Run_dispatch_ok next true k c n Hi (fun _ => Hd) Hc Hf Hn)
      as [k' Hk'].
    exists k'. split; [exact Hk'|].
    apply Run_dispatch_inv in Hk'. tauto.
Qed.

(** C7: [CheckToBeDestroyed] is idempotent: two calls in a row do what
    one call does, from every state; after a call the slot is [NULL];
    and the call goes through whenever the slot is empty or holds a
    live thread. *)
Theorem CheckToBeDestroyed_idempotent k :
  (CheckToBeDestroyed ;; CheckToBeDestroyed) k = CheckToBeDestroyed k /\
  (forall u k', CheckToBeDestroyed k = Done (u, k') ->
                toBeDestroyed k' = None) /\
  (match toBeDestroyed k with
   | Some p => live (heap k) p = true
   | None => True
   end -> exists k', CheckToBeDestroyed k = Done (tt, k')).
Proof.
  destruct (toBeDestroyed k) as [p|] eqn:Hd.
  - destruct (heap k !! p) as [t|] eqn:Hp.
    + pose proof (CheckToBeDestroyed_some k p t Hd Hp) as Hrun.
      split; [|split].
      * unfold bind at 1. rewrite Hrun.
        apply CheckToBeDestroyed_none. reflexivity.
      * intros u k' H. rewrite Hrun in H. injection H as H. subst k'.
        reflexivity.
      * eauto.
    + pose proof (CheckToBeDestroyed_dangling k p Hd Hp) as Hrun.
      split; [|split].
      * unfold bind at 1. rewrite Hrun. reflexivity.
      * intros u k' H. rewrite Hrun in H. discriminate.
      * unfold live. rewrite Hp. discriminate.
  - pose proof (CheckToBeDestroyed_none k Hd) as Hrun.
    split; [|split].
    + unfold bind at 1. rewrite Hrun. exact Hrun.
    + intros u k' H. rewrite Hrun in H. injection H as H. subst k'. exact Hd.
    + eauto.
Qed.

(** C8: [PureFindNext] returns the thread [FindNextToRun] returns
    ([NULL] included) and changes nothing. *)
Theorem PureFindNext_agrees_with_FindNextToRun k :
  (forall r k', FindNextToRun k = Done (r, k') ->
                PureFindNext k = Done (r, k)) /\
  (forall r k', PureFindNext k = Done (r, k') -> k' = k) /\
  (intLevel k = IntOff -> heap_closed k = true ->
   exists r k', FindNextToRun k = Done (r, k') /\
                PureFindNext k = Done (r, k)).
Proof.
  assert (Hpure : forall r k', PureFindNext k = Done (r, k') -> k' = k).
  { intros r k' H. destruct (intLevel k) eqn:Hi.
    - rewrite (PureFindNext_run k Hi) in H. congruence.
    - destruct (routine_IntOn_aborts k Hi) as (_ & Hp & _). congruence. }
  assert (Hagree : forall r k', FindNextToRun k = Done (r, k') ->
                                PureFindNext k = Done (r, k)).
  { intros r k' H. destruct (intLevel k) eqn:Hi.
    - rewrite (PureFindNext_run k Hi). f_equal. f_equal.
      revert H. unfold FindNextToRun, bind, gets, ASSERT, modify, deref,
        printf, ret.
      cbn. rewrite Hi. cbn.
      destruct (L1Queue k) as [|p1 q1]; [destruct (L2Queue k) as [|p2 q2];
        [destruct (L3Queue k) as [|p3 q3]|]|]; cbn.
      + congruence.
      + destruct (heap k !! p3); [congruence|discriminate].
      + destruct (heap k !! p2); [congruence|discriminate].
      + destruct (heap k !! p1); [congruence|discriminate].
    - destruct (routine_IntOn_aborts k Hi) as (Hf & _ & _). congruence. }
  split; [exact Hagree|]. split; [exact Hpure|].
  intros Hi Hcl.
  destruct (FindNextToRun_run k Hi Hcl) as (r & k' & Hrun & _).
  exists r, k'. split; [exact Hrun|]. exact (Hagree r k' Hrun).
Qed.

(** C10: with some queue non-empty, [FindNextToRun] takes exactly the
    thread it returns off exactly one queue and leaves the other two
    queues and [toBeDestroyed] as they were; with all queues empty it
    changes nothing. *)
Theorem FindNextToRun_frame k :
  intLevel k = IntOff -> heap_closed k = true ->
  exists r k', FindNextToRun k = Done (r, k') /\
    toBeDestroyed k' = toBeDestroyed k /\
    (L1Queue k = [] /\ L2Queue k = [] /\ L3Queue k = [] ->
     r = None /\ k' = k) /\
    (~ (L1Queue k = [] /\ L2Queue k = [] /\ L3Queue k = []) ->
     exists p l, r = Some p /\ queue l k = p :: queue l k' /\
                 forall l', l' <> l -> queue l' k' = queue l' k).
Proof.
  intros Hi Hcl.
  destruct (FindNextToRun_run k Hi Hcl)
    as (r & k' & Hrun & _ & _ & Hd & _ & Hq).
  exists r, k'. split; [exact Hrun|]. split; [exact Hd|].
  destruct (L1Queue k) as [|p1 q1] eqn:E1; [destruct (L2Queue k) as [|p2 q2] eqn:E2;
    [destruct (L3Queue k) as [|p3 q3] eqn:E3|]|].
  - split; [intros _; exact Hq|]. intros H. exfalso. apply H. auto.
  - destruct Hq as (-> & H1 & H2 & H3).
    split; [intros (_ & _ & ?); discriminate|]. intros _.
    exists p3, L3. split; [reflexivity|]. cbn. rewrite E3, H3.
    split; [reflexivity|].
    intros [| |] Hne; cbn; congruence.
  - destruct Hq as (-> & H1 & H2 & H3).
    split; [intros (_ & ? & _); discriminate|]. intros _.
    exists p2, L2. split; [reflexivity|]. cbn. rewrite E2, H2.
    split; [reflexivity|].
    intros [| |] Hne; cbn; congruence.
  - destruct Hq as (-> & H1 & H2 & H3).
    split; [intros (? & _ & _); discriminate|]. intros _.
    exists p1, L1. split; [reflexivity|]. cbn. rewrite E1, H1.
    split; [reflexivity|].
    intros [| |] Hne; cbn; congruence.
Qed.

(** C2: [ReadyToRun] puts the thread on the queue of its priority
    band (L3 below 50, L2 from 50 to 99, L1 from 100 on), leaves the
    other two queues alone, and prints the "inserted into queue"
    line of that band.  On L3 the thread is the new tail; on L2 and
    L1 the queue is the old one with the thread appended, sorted. *)
Theorem ReadyToRun_places_by_band thread k th :
  intLevel k = IntOff -> heap k !! thread = Some th ->
  heap_closed k = true ->
  exists k', ReadyToRun thread k = Done (tt, k') /\
    (checkPriority th < 50 ->
       L3Queue k' = L3Queue k ++ [thread] /\
       L1Queue k' = L1Queue k /\ L2Queue k' = L2Queue k /\
       output k' = output k ++ [Inserted (totalTicks k) (getID th) L3]) /\
    (50 <= checkPriority th < 100 ->
       sorted_from cmpL2 (heap k') (L2Queue k ++ [thread]) (L2Queue k') /\
       Permutation (L2Queue k ++ [thread]) (L2Queue k') /\
       L1Queue k' = L1Queue k /\ L3Queue k' = L3Queue k /\
       output k' = output k ++ [Inserted (totalTicks k) (getID th) L2]) /\
    (100 <= checkPriority th ->
       sorted_from cmpL1 (heap k') (L1Queue k ++ [thread]) (L1Queue k') /\
       Permutation (L1Queue k ++ [thread]) (L1Queue k') /\
       L2Queue k' = L2Queue k /\ L3Queue k' = L3Queue k /\
       output k' = output k ++ [Inserted (totalTicks k) (getID th) L1]).
Proof.
  intros Hi Hth Hcl.
  destruct (ReadyToRun_admits thread k th Hi Hth Hcl)
    as (k' & Hrun & _ & _ & Hout & Hq).
  exists k'. split; [exact Hrun|]. unfold band in Hout, Hq.
  destruct (checkPriority th <? 50) eqn:E50;
    [|destruct (checkPriority th <? 100) eqn:E100].
  - apply Z.ltb_lt in E50. repeat split; intros; try lia; tauto.
  - apply Z.ltb_ge in E50. apply Z.ltb_lt in E100.
    destruct Hq as (H1 & H3 & Hs & _).
    repeat split; intros; try lia; auto.
    exact (sorted_from_perm _ _ _ _ Hs).
  - apply Z.ltb_ge in E50, E100.
    destruct Hq as (H2 & H3 & Hs & _).
    repeat split; intros; try lia; auto.
    exact (sorted_from_perm _ _ _ _ Hs).
Qed.

(** C9, as the code has it: [ReadyToRun] asserts only that interrupts
    are off.  It never looks at the status the thread comes with:
    whatever that status, the thread is marked READY and put on the
    queue of its band. *)
Theorem ReadyToRun_ignores_status thread k th :
  intLevel k = IntOff -> heap k !! thread = Some th ->
  heap_closed k = true ->
  exists k', ReadyToRun thread k = Done (tt, k') /\
    In thread (queue (band (checkPriority th)) k') /\
    status <$> heap k' !! thread = Some READY.
Proof.
  intros Hi Hth Hcl.
  destruct (ReadyToRun_admits thread k th Hi Hth Hcl)
    as (k' & Hrun & Hheap & _ & _ & Hq).
  exists k'. split; [exact Hrun|]. split.
  - destruct (band (checkPriority th)); cbn.
    + destruct Hq as (_ & _ & Hs & _).
      eapply Permutation_in; [exact (sorted_from_perm _ _ _ _ Hs)|].
      apply in_or_app. right. left. reflexivity.
    + destruct Hq as (_ & _ & Hs & _).
      eapply Permutation_in; [exact (sorted_from_perm _ _ _ _ Hs)|].
      apply in_or_app. right. left. reflexivity.
    + destruct Hq as (_ & _ & -> & _).
      apply in_or_app. right. left. reflexivity.
  - rewrite Hheap. exact (admitted_heap_status thread k th Hth).
Qed.

(** C3, as the code has it: [ReadyToRun thread] writes the predictor of
    the running thread exactly when [thread] is another thread; the
    new value is [checkTempTick() / 2 + checkT() / 2], the tick count
    halved as an [int]; no other predictor changes.  When the running
    thread itself is admitted (the yield) its predictor stays as it
    was.  The write comes before the placement: a thread that goes to
    L1 finds L1 sorted by the values of the heap the call leaves
    behind. *)
Theorem ReadyToRun_predictor_update thread k th c :
  intLevel k = IntOff -> heap k !! thread = Some th ->
  heap k !! currentThread k = Some c -> heap_closed k = true ->
  exists k', ReadyToRun thread k = Done (tt, k') /\
    (currentThread k <> thread ->
       checkT <$> heap k' !! currentThread k
       = Some (burst_add (burst_of_ticks (Z.quot (checkTempTick c) 2))
                         (burst_half (checkT c)))) /\
    (currentThread k = thread ->
       checkT <$> heap k' !! currentThread k = Some (checkT c)) /\
    (forall p, p <> currentThread k ->
       checkT <$> heap k' !! p = checkT <$> heap k !! p) /\
    (100 <= checkPriority th -> L1_ordered k').
Proof.
  intros Hi Hth Hc Hcl.
  destruct (ReadyToRun_admits thread k th Hi Hth Hcl)
    as (k' & Hrun & Hheap & _ & _ & Hq).
  exists k'. split; [exact Hrun|]. rewrite Hheap.
  split; [|split; [|split]].
  - intros Hne. exact (admitted_heap_T_current thread k c Hne Hc).
  - intros He. rewrite admitted_heap_T_other by auto. rewrite Hc. reflexivity.
  - intros p Hp. apply admitted_heap_T_other. auto.
  - intros Hprio. unfold band in Hq.
    destruct (checkPriority th <? 50) eqn:E50; [apply Z.ltb_lt in E50; lia|].
    destruct (checkPriority th <? 100) eqn:E100; [apply Z.ltb_lt in E100; lia|].
    destruct Hq as (_ & _ & Hs & _). unfold L1_ordered.
    exact (sorted_from_ordered _ _ _ _ cmpL1_asym cmpL1_le_trans Hs).
Qed.


(** C5, as the code has it: when the running thread's tick count
    equals its predicted burst and is even, the update leaves the
    predictor as it was. *)
Theorem predictor_update_stable_when_even thread k th c n :
  intLevel k = IntOff -> heap k !! thread = Some th ->
  heap k !! currentThread k = Some c -> heap_closed k = true ->
  checkTempTick c = 2 * n ->
  checkT c = burst_of_ticks (checkTempTick c) ->
  nextT c = checkT c /\
  exists k', ReadyToRun thread k = Done (tt, k') /\
    checkT <$> heap k' !! currentThread k = Some (checkT c).
Proof.
  intros Hi Hth Hc Hcl Heven HT.
  assert (Hnext : nextT c = checkT c).
  { unfold nextT. rewrite HT, Heven.
    replace (Z.quot (2 * n) 2) with n
      by (rewrite Z.mul_comm, Z.quot_mul by lia; reflexivity).
    apply burst_half_even. }
  split; [exact Hnext|].
  destruct (ReadyToRun_admits thread k th Hi Hth Hcl)
    as (k' & Hrun & Hheap & _).
  exists k'. split; [exact Hrun|]. rewrite Hheap.
  destruct (decide (currentThread k = thread)) as [He|Hne].
  - rewrite admitted_heap_T_other by auto. rewrite Hc. reflexivity.
  - rewrite (admitted_heap_T_current thread k c Hne Hc), Hnext. reflexivity.
Qed.
End Claims.

(** ** The properties on concrete kernels *)

Lemma FindNextToRun_selects_highest_band_witness :
  intLevel (kernel_busy (BA := IntBurst)) = IntOff /\
  heap_closed (kernel_busy (BA := IntBurst)) = true /\
  exists k', FindNextToRun (kernel_busy (BA := IntBurst))
             = Done (Some 2%positive, k') /\ L1Queue k' = [].
Proof.
  split; [reflexivity|]. split; [vm_compute; reflexivity|].
  destruct (FindNextToRun_selects_highest_band
              (kernel_busy (BA := IntBurst)) eq_refl eq_refl)
    as (r & k' & Hrun & Hq & _).
  cbn in Hq. destruct Hq as [-> Hq]. exists k'. split; assumption.
Defined.

Lemma ReadyToRun_places_by_band_witness :
  intLevel (kernel_ABC (BA := IntBurst)) = IntOff /\
  heap (kernel_ABC (BA := IntBurst)) !! 3%positive
    = Some (thread_of 3 10 0 0 NEW) /\
  heap_closed (kernel_ABC (BA := IntBurst)) = true /\
  exists k', ReadyToRun 3%positive (kernel_ABC (BA := IntBurst)) = Done (tt, k') /\
             L3Queue k' = [3%positive] /\ output k' = [Inserted 0 3 L3].
Proof.
  split; [reflexivity|]. split; [reflexivity|]. split; [vm_compute; reflexivity|].
  destruct (ReadyToRun_places_by_band 3%positive
              (kernel_ABC (BA := IntBurst)) (thread_of 3 10 0 0 NEW)
              eq_refl eq_refl eq_refl)
    as (k' & Hrun & H3 & _).
  exists k'. split; [exact Hrun|].
  destruct (H3 ltac:(cbn; lia)) as (HL3 & _ & _ & Hout). split; assumption.
Defined.

Lemma ReadyToRun_predictor_update_witness :
  intLevel (kernel_yield (BA := IntBurst)) = IntOff /\
  heap (kernel_yield (BA := IntBurst)) !! 2%positive
    = Some (thread_of 2 130 10 0 NEW) /\
  heap (kernel_yield (BA := IntBurst)) !! 1%positive
    = Some (thread_of 1 120 50 20 RUNNING) /\
  heap_closed (kernel_yield (BA := IntBurst)) = true /\
  exists k', ReadyToRun 2%positive (kernel_yield (BA := IntBurst)) = Done (tt, k') /\
             checkT <$> heap k' !! 1%positive = Some (burst_of_ticks 35).
Proof.
  split; [reflexivity|]. split; [reflexivity|]. split; [reflexivity|].
  split; [vm_compute; reflexivity|].
  destruct (ReadyToRun_predictor_update 2%positive
              (kernel_yield (BA := IntBurst)) (thread_of 2 130 10 0 NEW)
              (thread_of 1 120 50 20 RUNNING) eq_refl eq_refl eq_refl eq_refl)
    as (k' & Hrun & Hupd & _).
  exists k'. split; [exact Hrun|]. apply Hupd. cbn. discriminate.
Defined.


Lemma predictor_update_stable_when_even_witness :
  intLevel (kernel_even (BA := IntBurst)) = IntOff /\
  heap (kernel_even (BA := IntBurst)) !! 2%positive
    = Some (thread_of 2 10 0 0 NEW) /\
  heap (kernel_even (BA := IntBurst)) !! 1%positive
    = Some (thread_of 1 120 4 4 RUNNING) /\
  heap_closed (kernel_even (BA := IntBurst)) = true /\
  exists k', ReadyToRun 2%positive (kernel_even (BA := IntBurst)) = Done (tt, k') /\
             checkT <$> heap k' !! 1%positive = Some (burst_of_ticks 4).
Proof.
  split; [reflexivity|]. split; [reflexivity|]. split; [reflexivity|].
  split; [vm_compute; reflexivity|].
  destruct (predictor_update_stable_when_even 2%positive
              (kernel_even (BA := IntBurst)) (thread_of 2 10 0 0 NEW)
              (thread_of 1 120 4 4 RUNNING) 2
              eq_refl eq_refl eq_refl eq_refl eq_refl eq_refl)
    as (_ & k' & Hrun & HT).
  exists k'. split; [exact Hrun|exact HT].
Defined.

Lemma Run_finishing_marks_old_thread_witness :
  intLevel (kernel_ABC (BA := IntBurst)) = IntOff /\
  toBeDestroyed (kernel_ABC (BA := IntBurst)) = None /\
  exists k', Run_dispatch 2%positive true (kernel_ABC (BA := IntBurst))
             = Done (1%positive, k') /\
             toBeDestroyed k' = Some 1%positive.
Proof.
  split; [reflexivity|]. split; [reflexivity|].
  destruct (Run_finishing_marks_old_thread 2%positive
              (kernel_ABC (BA := IntBurst))) as (_ & _ & _ & Hok).
  exact (Hok (thread_of 1 120 100 0 RUNNING) (thread_of 2 120 30 0 NEW)
             eq_refl eq_refl eq_refl eq_refl eq_refl).
Defined.

Lemma CheckToBeDestroyed_idempotent_witness :
  toBeDestroyed (kernel_busy (BA := IntBurst)) = Some 5%positive /\
  (CheckToBeDestroyed ;; CheckToBeDestroyed)%kernel (kernel_busy (BA := IntBurst))
  = CheckToBeDestroyed (kernel_busy (BA := IntBurst)) /\
  exists k', CheckToBeDestroyed (kernel_busy (BA := IntBurst)) = Done (tt, k').
Proof.
  split; [reflexivity|].
  destruct (CheckToBeDestroyed_idempotent (kernel_busy (BA := IntBurst)))
    as (Hidem & _ & Hok).
  split; [exact Hidem|]. apply Hok. vm_compute. reflexivity.
Defined.

Lemma PureFindNext_agrees_with_FindNextToRun_witness :
  intLevel (kernel_busy (BA := IntBurst)) = IntOff /\
  heap_closed (kernel_busy (BA := IntBurst)) = true /\
  exists r k', FindNextToRun (kernel_busy (BA := IntBurst)) = Done (r, k') /\
               PureFindNext (kernel_busy (BA := IntBurst))
               = Done (r, kernel_busy (BA := IntBurst)).
Proof.
  split; [reflexivity|]. split; [vm_compute; reflexivity|].
  destruct (PureFindNext_agrees_with_FindNextToRun
              (kernel_busy (BA := IntBurst))) as (_ & _ & Hboth).
  exact (Hboth eq_refl eq_refl).
Defined.

Lemma ReadyToRun_ignores_status_witness :
  intLevel (kernel_dead (BA := IntBurst)) = IntOff /\
  heap (kernel_dead (BA := IntBurst)) !! 2%positive
    = Some (thread_of 2 10 0 0 TERMINATED) /\
  heap_closed (kernel_dead (BA := IntBurst)) = true /\
  exists k', ReadyToRun 2%positive (kernel_dead (BA := IntBurst)) = Done (tt, k') /\
             In 2%positive (L3Queue k') /\
             status <$> heap k' !! 2%positive = Some READY.
Proof.
  split; [reflexivity|]. split; [reflexivity|]. split; [vm_compute; reflexivity|].
  exact (ReadyToRun_ignores_status 2%positive (kernel_dead (BA := IntBurst))
           (thread_of 2 10 0 0 TERMINATED) eq_refl eq_refl eq_refl).
Defined.

Lemma FindNextToRun_frame_witness :
  intLevel (kernel_busy (BA := IntBurst)) = IntOff /\
  heap_closed (kernel_busy (BA := IntBurst)) = true /\
  exists r k', FindNextToRun (kernel_busy (BA := IntBurst)) = Done (r, k') /\
               toBeDestroyed k' = Some 5%positive.
Proof.
  split; [reflexivity|]. split; [vm_compute; reflexivity|].
  destruct (FindNextToRun_frame (kernel_busy (BA := IntBurst)) eq_refl eq_refl)
    as (r & k' & Hrun & Hd & _).
  exists r, k'. split; [exact Hrun|exact Hd].
Defined.

(** ** Where the code departs from the specification *)

(** C3: thread 1 runs, has run for 20 ticks and predicts 50.  When it is
    itself admitted (the yield), its predictor is still 50 afterwards,
    not the 0.5 * 20 + 0.5 * 50 = 35 the update would give -- whether
    [T] is an [int] or a real. *)
Lemma yield_leaves_predictor_unchanged :
  (currentThread (kernel_yield (BA := IntBurst)) = 1%positive /\
   nextT (BA := IntBurst) (thread_of 1 120 50 20 RUNNING) = burst_of_ticks 35 /\
   exists k', ReadyToRun 1%positive (kernel_yield (BA := IntBurst)) = Done (tt, k') /\
              checkT <$> heap k' !! 1%positive = Some (burst_of_ticks 50) /\
              checkT <$> heap k' !! 1%positive <> Some (burst_of_ticks 35)) /\
  (currentThread (kernel_yield (BA := RatBurst)) = 1%positive /\
   nextT (BA := RatBurst) (thread_of 1 120 50 20 RUNNING) = burst_of_ticks 35 /\
   exists k', ReadyToRun 1%positive (kernel_yield (BA := RatBurst)) = Done (tt, k') /\
              checkT <$> heap k' !! 1%positive = Some (burst_of_ticks 50) /\
              checkT <$> heap k' !! 1%positive <> Some (burst_of_ticks 35)).
Proof.
  split.
  - split; [reflexivity|]. split; [reflexivity|].
    exists (state_of (ReadyToRun 1%positive) kernel_yield).
    assert (HT : checkT <$> heap (state_of (ReadyToRun 1%positive)
                                    (kernel_yield (BA := IntBurst))) !! 1%positive
                 = Some (burst_of_ticks 50)) by (vm_compute; reflexivity).
    split; [vm_compute; reflexivity|]. split; [exact HT|].
    rewrite HT. discriminate.
  - split; [reflexivity|]. split; [apply Qc_is_canon; reflexivity|].
    exists (state_of (ReadyToRun 1%positive) kernel_yield).
    assert (HT : checkT <$> heap (state_of (ReadyToRun 1%positive)
                                    (kernel_yield (BA := RatBurst))) !! 1%positive
                 = Some (burst_of_ticks 50)) by (vm_compute; reflexivity).
    split; [vm_compute; reflexivity|]. split; [exact HT|].
    rewrite HT. intros H.
    apply (f_equal (fun o : option Qc => this <$> o)) in H.
    vm_compute in H. discriminate H.
Qed.


(** C5: the running thread has run for 3 ticks and predicts 3.  The
    update stores 3 / 2 + 3 / 2: 2 when [T] is an [int], 5/2 when it is
    a real (the tick count is halved as an [int] either way). *)
Lemma predictor_update_unstable_when_odd :
  (checkTempTick (BA := IntBurst) (thread_of 1 120 3 3 RUNNING) = 3 /\
   checkT (BA := IntBurst) (thread_of 1 120 3 3 RUNNING) = burst_of_ticks 3 /\
   nextT (BA := IntBurst) (thread_of 1 120 3 3 RUNNING) = burst_of_ticks 2 /\
   exists k', ReadyToRun 2%positive (kernel_odd (BA := IntBurst)) = Done (tt, k') /\
              checkT <$> heap (kernel_odd (BA := IntBurst)) !! 1%positive
              = Some (burst_of_ticks 3) /\
              checkT <$> heap k' !! 1%positive = Some (burst_of_ticks 2) /\
              checkT <$> heap k' !! 1%positive <> Some (burst_of_ticks 3)) /\
  (checkTempTick (BA := RatBurst) (thread_of 1 120 3 3 RUNNING) = 3 /\
   checkT (BA := RatBurst) (thread_of 1 120 3 3 RUNNING) = burst_of_ticks 3 /\
   nextT (BA := RatBurst) (thread_of 1 120 3 3 RUNNING)
   = burst_half (burst_of_ticks 5) /\
   exists k', ReadyToRun 2%positive (kernel_odd (BA := RatBurst)) = Done (tt, k') /\
              checkT <$> heap (kernel_odd (BA := RatBurst)) !! 1%positive
              = Some (burst_of_ticks 3) /\
              checkT <$> heap k' !! 1%positive
              = Some (nextT (thread_of 1 120 3 3 RUNNING)) /\
              checkT <$> heap k' !! 1%positive <> Some (burst_of_ticks 3)).
Proof.
  split.
  - split; [reflexivity|]. split; [reflexivity|]. split; [reflexivity|].
    exists (state_of (ReadyToRun 2%positive) kernel_odd).
    assert (HT : checkT <$> heap (state_of (ReadyToRun 2%positive)
                                    (kernel_odd (BA := IntBurst))) !! 1%positive
                 = Some (burst_of_ticks 2)) by (vm_compute; reflexivity).
    split; [vm_compute; reflexivity|]. split; [reflexivity|].
    split; [exact HT|]. rewrite HT. discriminate.
  - split; [reflexivity|]. split; [reflexivity|].
    split; [apply Qc_is_canon; reflexivity|].
    exists (state_of (ReadyToRun 2%positive) kernel_odd).
    assert (HT : checkT <$> heap (state_of (ReadyToRun 2%positive)
                                    (kernel_odd (BA := RatBurst))) !! 1%positive
                 = Some (nextT (thread_of 1 120 3 3 RUNNING)))
      by (vm_compute; reflexivity).
    split; [vm_compute; reflexivity|]. split; [reflexivity|].
    split; [exact HT|]. rewrite HT. intros H.
    apply (f_equal (fun o : option Qc => this <$> o)) in H.
    vm_compute in H. discriminate H.
Qed.

(** C9: thread 2 has terminated and thread 3 is marked RUNNING while
    thread 1 is the running thread.  [ReadyToRun] admits both without an
    assertion: each is READY and on a ready queue afterwards. *)
Lemma ReadyToRun_admits_terminated_thread :
  status <$> heap (kernel_dead (BA := IntBurst)) !! 2%positive
    = Some TERMINATED /\
  status <$> heap (kernel_dead (BA := IntBurst)) !! 3%positive
    = Some RUNNING /\
  currentThread (kernel_dead (BA := IntBurst)) = 1%positive /\
  (exists k', ReadyToRun 2%positive (kernel_dead (BA := IntBurst)) = Done (tt, k') /\
              L3Queue k' = [2%positive] /\
              status <$> heap k' !! 2%positive = Some READY) /\
  (exists k', ReadyToRun 3%positive (kernel_dead (BA := IntBurst)) = Done (tt, k') /\
              L2Queue k' = [3%positive] /\
              status <$> heap k' !! 3%positive = Some READY).
Proof.
  split; [vm_compute; reflexivity|]. split; [vm_compute; reflexivity|].
  split; [reflexivity|]. split.
  - exists (state_of (ReadyToRun 2%positive) kernel_dead).
    split; [vm_compute; reflexivity|]. split; vm_compute; reflexivity.
  - exists (state_of (ReadyToRun 3%positive) kernel_dead).
    split; [vm_compute; reflexivity|]. split; vm_compute; reflexivity.
Qed.

(** ** Further facts about the model *)

Section FurtherFacts.
Context {BA : BurstArith}.
Local Open Scope kernel_scope.

Lemma forallb_perm {A} (f : A -> bool) l l' :
  Permutation l l' -> forallb f l = true -> forallb f l' = true.
Proof.
  intros Hp Hl. apply forallb_forall. intros x Hx.
  rewrite forallb_forall in Hl. apply Hl.
  eapply Permutation_in; [symmetry; exact Hp | exact Hx].
Qed.

Lemma forallb_live_admitted thread k q :
  forallb (live (admitted_heap thread k)) q = forallb (live (heap k)) q.
Proof.
  induction q as [|x q IH]; simpl; [reflexivity|].
  rewrite live_admitted_heap, IH. reflexivity.
Qed.

(** An admission leaves no dangling pointer behind. *)
Lemma admits_heap_closed thread th k k' :
  heap k !! thread = Some th -> heap_closed k = true ->
  admits thread th k k' -> heap_closed k' = true.
Proof.
  intros Hth Hcl (Hheap & (Hcur & _) & _ & Hq).
  destruct (heap_closed_parts k Hcl) as (Hc & H1 & H2 & H3).
  assert (Hlive : live (heap k) thread = true)
    by (unfold live; rewrite Hth; reflexivity).
  assert (Happ : forall q, forallb (live (heap k)) q = true ->
                           forallb (live (heap k)) (q ++ [thread]) = true)
    by (intros q Hq'; apply live_closed_app; assumption).
  unfold heap_closed. rewrite Hheap, Hcur, live_admitted_heap, Hc.
  rewrite !forallb_live_admitted.
  destruct (band (checkPriority th)).
  - destruct Hq as (-> & -> & Hs & _). rewrite H2, H3.
    rewrite (forallb_perm _ _ _ (sorted_from_perm _ _ _ _ Hs) (Happ _ H1)).
    reflexivity.
  - destruct Hq as (-> & -> & Hs & _). rewrite H1, H3.
    rewrite (forallb_perm _ _ _ (sorted_from_perm _ _ _ _ Hs) (Happ _ H2)).
    reflexivity.
  - destruct Hq as (-> & -> & -> & _). rewrite H1, H2, (Happ _ H3).
    reflexivity.
Qed.

(** One selection takes the first thread of [ready] and keeps the state
    well formed. *)
Lemma FindNextToRun_step k p rest :
  intLevel k = IntOff -> heap_closed k = true ->
  ready k = p :: rest ->
  exists k', FindNextToRun k = Done (Some p, k') /\
    ready k' = rest /\ intLevel k' = IntOff /\ heap_closed k' = true.
Proof.
  intros Hi Hcl Hr.
  destruct (heap_closed_parts k Hcl) as (Hc & H1 & H2 & H3).
  unfold ready in Hr. unfold heap_closed.
  destruct (L1Queue k) as [|p1 q1] eqn:E1; [destruct (L2Queue k) as [|p2 q2] eqn:E2;
    [destruct (L3Queue k) as [|p3 q3] eqn:E3|]|]; simpl in Hr;
    try discriminate; injection Hr as -> <-.
  - destruct (head_live _ _ _ H3) as [t Ht].
    eexists. rewrite (FindNextToRun_L3 k p q3 t) by assumption.
    split; [reflexivity|]. unfold ready. cbn. rewrite E1, E2, Hc.
    simpl in H3. apply andb_true_iff in H3 as [_ ->]. auto.
  - destruct (head_live _ _ _ H2) as [t Ht].
    eexists. rewrite (FindNextToRun_L2 k p q2 t) by assumption.
    split; [reflexivity|]. unfold ready. cbn. rewrite E1, Hc, H3.
    simpl in H2. apply andb_true_iff in H2 as [_ ->]. auto.
  - destruct (head_live _ _ _ H1) as [t Ht].
    eexists. rewrite (FindNextToRun_L1 k p q1 t) by assumption.
    split; [reflexivity|]. unfold ready. cbn. rewrite Hc, H2, H3.
    simpl in H1. apply andb_true_iff in H1 as [_ ->]. auto.
Qed.

Lemma ready_nil k :
  ready k = [] -> L1Queue k = [] /\ L2Queue k = [] /\ L3Queue k = [].
Proof.
  unfold ready. intros H. apply app_eq_nil in H as [H1 H].
  apply app_eq_nil in H as [H2 H3]. auto.
Qed.

(** A descriptor read behind an [alter] differs from the one in front of
    it by that function at most. *)
Lemma lookup_alter_inv (f : Thread -> Thread) p (h : gmap positive Thread) q o :
  alter f p h !! q = Some o ->
  exists c, h !! q = Some c /\ (o = c \/ o = f c).
Proof.
  rewrite lookup_alter. destruct (decide (p = q)) as [->|].
  - destruct (h !! q) as [c|]; [|discriminate].
    cbn. intros H. injection H as <-. eauto.
  - intros H. eauto.
Qed.

Lemma lookup_alter_Some (f : Thread -> Thread) p (h : gmap positive Thread) q t :
  h !! q = Some t ->
  alter f p h !! q = Some (if decide (p = q) then f t else t).
Proof.
  intros H. rewrite lookup_alter.
  destruct (decide (p = q)) as [->|]; rewrite H; reflexivity.
Qed.

(** What the first half of [Run] has done when it reaches [SWITCH]. *)
Lemma Run_dispatch_effect next finishing k old k' :
  Run_dispatch next finishing k = Done (old, k') ->
  exists c n,
    heap k !! currentThread k = Some c /\ heap k !! next = Some n /\
    fencepost c = true /\ intLevel k = IntOff /\
    (finishing = true -> toBeDestroyed k = None) /\
    old = currentThread k /\
    currentThread k' = next /\
    heap k' = dispatched_heap next k /\
    same_ready_set k k' /\
    toBeDestroyed k'
    = (if finishing then Some (currentThread k) else toBeDestroyed k) /\
    output k' = output k ++
      [Selected (totalTicks k) (getID n);
       Replaced (totalTicks k) (getID c) (checkTempTick c)] /\
    machine k' = machine k ++
      (if space c
       then [SaveUserState (currentThread k); SpaceSaveState (currentThread k)]
       else []) /\
    intLevel k' = intLevel k /\ totalTicks k' = totalTicks k /\
    alarmStat k' = alarmStat k.
Proof.
  intros H. unfold Run_dispatch in H.
  apply bind_inv in H as (old0 & k1 & H1 & H). apply gets_inv in H1 as [-> ->].
  apply bind_inv in H as (lvl & k1 & H1 & H). apply gets_inv in H1 as [-> ->].
  apply bind_inv in H as (? & k1 & H1 & H). apply ASSERT_inv in H1 as [Hi ->].
  apply bind_inv in H as (? & k1 & H1 & H).
  assert (Hfin : (finishing = true -> toBeDestroyed k = None) /\
                 k1 = if finishing
                      then with_toBeDestroyed (Some (currentThread k)) k else k).
  { destruct finishing.
    - apply bind_inv in H1 as (d & k2 & H1 & H2). apply gets_inv in H1 as [-> ->].
      apply bind_inv in H2 as (? & k2 & H2 & H3). apply ASSERT_inv in H2 as [Hd ->].
      apply modify_inv in H3 as ->. apply bool_decide_eq_true in Hd. auto.
    - apply ret_inv in H1 as [_ ->]. split; [discriminate|reflexivity]. }
  destruct Hfin as [Hd ->]. clear H1.
  apply bind_inv in H as (c & k1 & H1 & H). apply deref_inv in H1 as [Hc ->].
  assert (Hc' : heap k !! currentThread k = Some c)
    by (destruct finishing; exact Hc).
  apply bind_inv in H as (? & k1 & H1 & H).
  apply bind_inv in H as (? & k2 & H2 & H).
  unfold CheckOverflow in H2.
  apply bind_inv in H2 as (c' & k3 & H2 & H3). apply deref_inv in H2 as [Hc2 ->].
  apply ASSERT_inv in H3 as [Hf ->].
  assert (Hk1 : heap k1 = heap k /\
                k1 = with_machine
                       (machine k ++
                        (if space c
                         then [SaveUserState (currentThread k);
                               SpaceSaveState (currentThread k)]
                         else []))
                       (if finishing
                        then with_toBeDestroyed (Some (currentThread k)) k
                        else k)).
  { destruct (space c).
    - apply bind_inv in H1 as (? & k2 & H1 & H2).
      apply call_inv in H1 as ->. apply call_inv in H2 as ->.
      destruct finishing; cbn; rewrite <- app_assoc; auto.
    - apply ret_inv in H1 as [_ ->]. rewrite app_nil_r.
      destruct finishing; destruct k; cbn; auto. }
  destruct Hk1 as [Hh1 ->]. clear H1.
  rewrite Hh1, Hc' in Hc2. injection Hc2 as <-.
  assert (Hhf : heap (if finishing
                      then with_toBeDestroyed (Some (currentThread k)) k
                      else k) = heap k) by (destruct finishing; reflexivity).
  apply bind_inv in H as (? & k2 & H2 & H). apply modify_inv in H2 as ->.
  apply bind_inv in H as (? & k2 & H2 & H).
  apply update_inv in H2 as (n & Hn & ->).
  apply bind_inv in H as (tick & k2 & H2 & H). apply gets_inv in H2 as [-> ->].
  apply bind_inv in H as (n' & k2 & H2 & H). apply deref_inv in H2 as [Hn' ->].
  apply bind_inv in H as (? & k2 & H2 & H). apply printf_inv in H2 as ->.
  apply bind_inv in H as (o & k2 & H2 & H). apply deref_inv in H2 as [Ho ->].
  apply bind_inv in H as (? & k2 & H2 & H). apply printf_inv in H2 as ->.
  apply bind_inv in H as (? & k2 & H2 & H).
  apply update_inv in H2 as (o1 & Ho1 & ->).
  apply bind_inv in H as (? & k2 & H2 & H).
  apply update_inv in H2 as (o2 & Ho2 & ->).
  apply ret_inv in H as [-> ->].
  cbn in Hn, Hn', Ho. rewrite ?Hhf in Hn, Hn', Ho.
  rewrite lookup_alter_eq, Hn in Hn'. cbn in Hn'. injection Hn' as <-.
  apply lookup_alter_inv in Ho as (c0 & Hc0 & Ho).
  rewrite Hc' in Hc0. injection Hc0 as <-.
  assert (Hid : getID o = getID c /\ checkTempTick o = checkTempTick c)
    by (destruct Ho as [->| ->]; auto).
  destruct Hid as [Hid Htk].
  exists c, n. unfold dispatched_heap, same_ready_set.
  destruct (intLevel k) eqn:Ei; [|discriminate].
  destruct finishing; cbn; rewrite ?Hid, ?Htk, <- ?app_assoc; cbn;
    auto 20.
Qed.

(** The second half of [Run], when the thread that resumes is not the
    one pending destruction. *)
Lemma Run_resume_run old k o :
  intLevel k = IntOff ->
  match toBeDestroyed k with
  | Some d => d <> old /\ live (heap k) d = true
  | None => True
  end ->
  heap k !! old = Some o ->
  Run_resume old k
  = Done (tt,
          with_machine
            (machine k ++
             (if space o
              then [RestoreUserState old; SpaceRestoreState old] else []))
            (match toBeDestroyed k with
             | Some d => with_toBeDestroyed None
                           (with_heap (delete d (heap k)) k)
             | None => k
             end)).
Proof.
  intros Hi Hd Ho. unfold Run_resume.
  rewrite (bind_Done (gets intLevel) _ k _ _ eq_refl). rewrite Hi.
  rewrite (bind_Done _ _ k _ _ eq_refl).
  destruct (toBeDestroyed k) as [d|] eqn:Ed.
  - destruct Hd as [Hne Hl]. apply live_Some in Hl as [t Ht].
    rewrite (bind_Done _ _ _ _ _ (CheckToBeDestroyed_some k d t Ed Ht)).
    erewrite bind_Done; cycle 1.
    { apply deref_run. cbn. rewrite lookup_delete_ne by done. exact Ho. }
    destruct (space o); [|destruct k; cbn; rewrite app_nil_r; reflexivity].
    unfold bind, call, modify. cbn. rewrite <- app_assoc. reflexivity.
  - rewrite (bind_Done _ _ _ _ _ (CheckToBeDestroyed_none k Ed)).
    rewrite (bind_Done _ _ _ _ _ (deref_run old k o Ho)).
    destruct (space o); [|destruct k; cbn; rewrite app_nil_r; reflexivity].
    unfold bind, call, modify. cbn. rewrite <- app_assoc. reflexivity.
Qed.
End FurtherFacts.

(** *** Sorting a queue that was in order *)

Section ListInsertFacts.
Context {A : Type} (lt : A -> A -> bool).
Hypothesis lt_asym : forall a b, lt a b = true -> lt b a = false.
Hypothesis le_trans : forall a b c,
  lt b a = false -> lt c b = false -> lt c a = false.

Lemma sort_insert_tail x l :
  Forall (fun y => lt x y = false) l -> sort_insert lt x l = l ++ [x].
Proof.
  induction 1 as [|y l Hy Hl IH]; simpl; [reflexivity|].
  rewrite Hy, IH. reflexivity.
Qed.

Lemma ascending_app_head acc x l :
  ascending lt (acc ++ x :: l) -> Forall (fun y => lt x y = false) acc.
Proof.
  unfold ascending. induction acc as [|y acc IH]; simpl; intros Hs;
    [constructor|].
  apply StronglySorted_inv in Hs as [Hs Hy].
  constructor; [|exact (IH Hs)].
  apply Forall_app in Hy as [_ Hy]. exact (Forall_inv Hy).
Qed.

Lemma fold_sort_sorted l acc :
  ascending lt (acc ++ l) ->
  fold_left (fun a x => sort_insert lt x a) l acc = acc ++ l.
Proof.
  revert acc. induction l as [|x l IH]; intros acc Hs; simpl.
  - rewrite app_nil_r. reflexivity.
  - rewrite (sort_insert_tail x acc (ascending_app_head acc x l Hs)).
    rewrite IH; rewrite <- app_assoc; [reflexivity|exact Hs].
Qed.

(** Sorting a sorted list with one more element at its end only puts
    that element in its place. *)
Lemma list_sort_snoc x l :
  ascending lt l -> list_sort lt (l ++ [x]) = sort_insert lt x l.
Proof.
  intros Hs. unfold list_sort. rewrite fold_left_app. simpl.
  rewrite (fold_sort_sorted l []); [reflexivity|exact Hs].
Qed.

Lemma sort_insert_split x l :
  ascending lt l ->
  exists l1 l2, l = l1 ++ l2 /\ sort_insert lt x l = l1 ++ x :: l2 /\
    Forall (fun y => lt x y = false) l1 /\
    Forall (fun y => lt x y = true) l2.
Proof.
  unfold ascending. induction 1 as [|y l Hl IH Hy]; simpl.
  - exists [], []. repeat split; constructor.
  - destruct (lt x y) eqn:E.
    + exists [], (y :: l). repeat split; [constructor|].
      constructor; [exact E|].
      eapply Forall_impl; [|exact Hy].
      intros b Hb. exact (lt_le_trans lt le_trans _ _ _ E Hb).
    + destruct IH as (l1 & l2 & -> & -> & H1 & H2).
      exists (y :: l1), l2. repeat split; [constructor; assumption|exact H2].
Qed.
End ListInsertFacts.

Section InsertFacts.
Context {BA : BurstArith}.
Local Open Scope kernel_scope.

Lemma deref_all_app h q1 q2 pts :
  deref_all h (q1 ++ q2) = Some pts ->
  exists p1 p2, pts = p1 ++ p2 /\
    deref_all h q1 = Some p1 /\ deref_all h q2 = Some p2.
Proof.
  revert pts. induction q1 as [|p q1 IH]; simpl; intros pts H.
  - exists [], pts. auto.
  - destruct (h !! p) as [t|]; [|discriminate].
    destruct (deref_all h (q1 ++ q2)) as [r|]; [|discriminate].
    injection H as <-. destruct (IH r eq_refl) as (p1 & p2 & -> & -> & ->).
    exists ((p, t) :: p1), p2. auto.
Qed.

Lemma ascending_of_ordered h cmp pts :
  Forall (points_to h) pts ->
  ordered cmp h (map fst pts) ->
  ascending (through cmp) pts.
Proof.
  unfold ascending, ordered. intros Hpts.
  induction Hpts as [|a l Ha Hl IH]; simpl; intros Hs; [constructor|].
  apply StronglySorted_inv in Hs as [Hs Hall].
  constructor; [exact (IH Hs)|].
  rewrite Forall_map in Hall. rewrite Forall_forall in Hall, Hl |- *.
  intros b Hb. exact (Hall b Hb _ _ Ha (Hl b Hb)).
Qed.

(** Sorting an ordered queue with one more thread at its tail puts that
    thread behind the threads it does not compare before and in front
    of the others, and moves nobody else. *)
Lemma sorted_from_insert cmp h q thread th q' :
  (forall a b c, through cmp b a = false -> through cmp c b = false ->
                 through cmp c a = false) ->
  ordered cmp h q -> h !! thread = Some th ->
  sorted_from cmp h (q ++ [thread]) q' ->
  exists q1 q2, q = q1 ++ q2 /\ q' = q1 ++ thread :: q2 /\
    (forall p t, In p q1 -> h !! p = Some t -> cmp th t = false) /\
    (forall p t, In p q2 -> h !! p = Some t -> cmp th t = true).
Proof.
  intros Htrans Ho Hth (pts & Hpts & ->).
  apply deref_all_app in Hpts as (pq & pt & -> & Hpq & Hpt).
  simpl in Hpt. rewrite Hth in Hpt. injection Hpt as <-.
  destruct (deref_all_points _ _ _ Hpq) as [Hfst Hall].
  rewrite <- Hfst in Ho.
  pose proof (ascending_of_ordered h cmp pq Hall Ho) as Hasc.
  rewrite (list_sort_snoc (through cmp) (thread, th) pq Hasc).
  destruct (sort_insert_split (through cmp) Htrans (thread, th) pq Hasc)
    as (l1 & l2 & -> & -> & H1 & H2).
  apply Forall_app in Hall as [Ha1 Ha2].
  exists (map fst l1), (map fst l2).
  rewrite <- Hfst, !map_app. cbn [map fst].
  split; [reflexivity|]. split; [reflexivity|].
  rewrite Forall_forall in H1, H2, Ha1, Ha2. split.
  - intros p t Hin Hp. apply in_map_iff in Hin as ([p0 t0] & <- & Hin).
    pose proof (Ha1 _ Hin) as Hpt. unfold points_to in Hpt. cbn in Hpt, Hp.
    rewrite Hpt in Hp. injection Hp as <-. exact (H1 _ Hin).
  - intros p t Hin Hp. apply in_map_iff in Hin as ([p0 t0] & <- & Hin).
    pose proof (Ha2 _ Hin) as Hpt. unfold points_to in Hpt. cbn in Hpt, Hp.
    rewrite Hpt in Hp. injection Hp as <-. exact (H2 _ Hin).
Qed.
End InsertFacts.

(** ** Further properties of the routines *)

Section Further.
Context {BA : BurstArith}.
Local Open Scope kernel_scope.


(** X2: [CheckToBeDestroyed] deletes the pending thread and nothing
    else: every other descriptor, the three queues, the current thread
    and the output are as before -- a pending thread that is still on a
    queue stays there as a dangling pointer.  The routine does not look
    at the interrupt level. *)
Theorem CheckToBeDestroyed_deletes_only_pending k p t :
  toBeDestroyed k = Some p -> heap k !! p = Some t ->
  exists k', CheckToBeDestroyed k = Done (tt, k') /\
    heap k' !! p = None /\
    (forall q, q <> p -> heap k' !! q = heap k !! q) /\
    same_ready_set k k' /\
    currentThread k' = currentThread k /\ intLevel k' = intLevel k /\
    output k' = output k /\ machine k' = machine k.
Proof.
  intros Hd Hp. eexists. split; [exact (CheckToBeDestroyed_some k p t Hd Hp)|].
  cbn. split; [apply lookup_delete_eq|].
  split; [intros q Hq; apply lookup_delete_ne; congruence|].
  unfold same_ready_set. cbn. auto 10.
Qed.

(** X3: [ReadyToRun] raises [enablePreemptOnce] exactly when the thread
    goes to L1 or L2 (priority 50 or more) and is not the running
    thread; it never clears the flag. *)
Theorem ReadyToRun_preempt_flag thread k th :
  intLevel k = IntOff -> heap k !! thread = Some th ->
  heap_closed k = true ->
  exists k', ReadyToRun thread k = Done (tt, k') /\
    (enablePreemptOnce k' = true <->
     enablePreemptOnce k = true \/
     (50 <= checkPriority th /\ currentThread k <> thread)).
Proof.
  intros Hi Hth Hcl.
  destruct (ReadyToRun_admits thread k th Hi Hth Hcl)
    as (k' & Hrun & _ & _ & _ & Hq).
  exists k'. split; [exact Hrun|]. unfold band in Hq.
  destruct (checkPriority th <? 50) eqn:E50;
    [|destruct (checkPriority th <? 100) eqn:E100].
  - apply Z.ltb_lt in E50. destruct Hq as (_ & _ & _ & ->).
    split; [auto|]. intros [H|[H _]]; [exact H|lia].
  - apply Z.ltb_ge in E50. destruct Hq as (_ & _ & _ & ->).
    rewrite orb_true_iff, bool_decide_eq_true. split.
    + intros [H|H]; auto.
    + intros [H|[_ H]]; auto.
  - apply Z.ltb_ge in E50, E100. destruct Hq as (_ & _ & _ & ->).
    rewrite orb_true_iff, bool_decide_eq_true. split.
    + intros [H|H]; [right; split; [lia|exact H]|auto].
    + intros [H|[_ H]]; auto.
Qed.

(** X4: in the descriptors, [ReadyToRun] writes the status of the
    admitted thread and the predictor of the running thread, and nothing
    else: no descriptor appears or disappears, and identity, priority,
    tick count, last tick, address space and stack sentinel of every
    thread are as before.  The current thread, the pending destruction,
    the alarm and the clock are not touched. *)
Theorem ReadyToRun_writes_status_and_predictor_only thread k th :
  intLevel k = IntOff -> heap k !! thread = Some th ->
  heap_closed k = true ->
  exists k', ReadyToRun thread k = Done (tt, k') /\
    same_kernel_context k k' /\
    forall p,
      match heap k !! p, heap k' !! p with
      | Some t, Some t' =>
          getID t' = getID t /\ checkPriority t' = checkPriority t /\
          checkTempTick t' = checkTempTick t /\
          lastExecTick t' = lastExecTick t /\
          space t' = space t /\ fencepost t' = fencepost t /\
          (p <> thread -> status t' = status t) /\
          (p <> currentThread k \/ currentThread k = thread ->
           checkT t' = checkT t)
      | None, None => True
      | _, _ => False
      end.
Proof.
  intros Hi Hth Hcl.
  destruct (ReadyToRun_admits thread k th Hi Hth Hcl)
    as (k' & Hrun & Hheap & Hctx & _).
  exists k'. split; [exact Hrun|]. split; [exact Hctx|].
  intros p. rewrite Hheap. unfold admitted_heap.
  destruct (heap k !! p) as [t|] eqn:Hp;
    case_bool_decide as Hne; rewrite ?lookup_alter;
    repeat case_decide;
    repeat match goal with
           | E : _ = p |- _ => rewrite E in *; clear E
           end;
    rewrite ?Hp; cbn; try exact I;
    repeat split; try reflexivity; try congruence;
    intros [Hx|Hx]; congruence.
Qed.

(** X5: [ReadyToRun] keeps the heap closed: if the running thread and
    every queued thread were live before the call, they are after it,
    the admitted thread included. *)
Theorem ReadyToRun_keeps_heap_closed thread k th :
  intLevel k = IntOff -> heap k !! thread = Some th ->
  heap_closed k = true ->
  exists k', ReadyToRun thread k = Done (tt, k') /\
    heap_closed k' = true /\ live (heap k') thread = true.
Proof.
  intros Hi Hth Hcl.
  destruct (ReadyToRun_admits thread k th Hi Hth Hcl) as (k' & Hrun & Hadm).
  exists k'. split; [exact Hrun|].
  split; [exact (admits_heap_closed thread th k k' Hth Hcl Hadm)|].
  destruct Hadm as (-> & _). rewrite live_admitted_heap.
  unfold live. rewrite Hth. reflexivity.
Qed.

(** X6: [FindNextToRun] switches the alarm on when it takes a thread
    from L3 and off when it takes one from L1 or L2, prints the
    "removed from queue" line of that queue with the clock and the
    thread's identity, and with nothing ready leaves alarm and output
    alone. *)
Theorem FindNextToRun_alarm_and_trace k :
  intLevel k = IntOff -> heap_closed k = true ->
  exists r k', FindNextToRun k = Done (r, k') /\
    match L1Queue k, L2Queue k, L3Queue k with
    | p :: _, _, _ =>
        alarmStat k' = false /\
        exists t, heap k !! p = Some t /\
          output k' = output k ++ [Removed (totalTicks k) (getID t) L1]
    | [], p :: _, _ =>
        alarmStat k' = false /\
        exists t, heap k !! p = Some t /\
          output k' = output k ++ [Removed (totalTicks k) (getID t) L2]
    | [], [], p :: _ =>
        alarmStat k' = true /\
        exists t, heap k !! p = Some t /\
          output k' = output k ++ [Removed (totalTicks k) (getID t) L3]
    | [], [], [] =>
        alarmStat k' = alarmStat k /\ output k' = output k
    end.
Proof.
  intros Hi Hcl. destruct (heap_closed_parts k Hcl) as (_ & H1 & H2 & H3).
  destruct (L1Queue k) as [|p1 q1] eqn:E1; [destruct (L2Queue k) as [|p2 q2] eqn:E2;
    [destruct (L3Queue k) as [|p3 q3] eqn:E3|]|].
  - exists None, k. rewrite FindNextToRun_none by assumption. auto.
  - destruct (head_live _ _ _ H3) as [t Ht].
    do 2 eexists. rewrite (FindNextToRun_L3 k p3 q3 t) by assumption.
    split; [reflexivity|]. cbn. eauto.
  - destruct (head_live _ _ _ H2) as [t Ht].
    do 2 eexists. rewrite (FindNextToRun_L2 k p2 q2 t) by assumption.
    split; [reflexivity|]. cbn. eauto.
  - destruct (head_live _ _ _ H1) as [t Ht].
    do 2 eexists. rewrite (FindNextToRun_L1 k p1 q1 t) by assumption.
    split; [reflexivity|]. cbn. eauto.
Qed.

(** X7: [FindNextToRun] keeps the heap closed and leaves every
    descriptor, the current thread and the interrupt level as they
    were. *)
Theorem FindNextToRun_keeps_heap_closed k :
  intLevel k = IntOff -> heap_closed k = true ->
  exists r k', FindNextToRun k = Done (r, k') /\
    heap_closed k' = true /\ heap k' = heap k /\
    currentThread k' = currentThread k /\ intLevel k' = IntOff.
Proof.
  intros Hi Hcl.
  destruct (FindNextToRun_run k Hi Hcl)
    as (r & k' & Hrun & Hh & Hc & _ & _ & _).
  destruct (ready k) as [|p rest] eqn:Er.
  - destruct (ready_nil k Er) as (E1 & E2 & E3).
    rewrite (FindNextToRun_none k Hi E1 E2 E3) in Hrun.
    injection Hrun as <- <-. exists None, k. rewrite FindNextToRun_none by assumption.
    auto.
  - destruct (FindNextToRun_step k p rest Hi Hcl Er)
      as (k1 & Hrun1 & _ & Hi1 & Hcl1).
    rewrite Hrun1 in Hrun. injection Hrun as <- <-.
    exists (Some p), k1. rewrite Hrun1. auto.
Qed.

(** X8: placing a thread on an empty ready set and selecting at once
    gives that thread back and leaves all three queues empty, whatever
    its band. *)
Theorem ReadyToRun_then_FindNextToRun thread k th :
  intLevel k = IntOff -> heap k !! thread = Some th ->
  heap_closed k = true ->
  L1Queue k = [] -> L2Queue k = [] -> L3Queue k = [] ->
  exists k', (ReadyToRun thread ;; FindNextToRun) k = Done (Some thread, k') /\
    L1Queue k' = [] /\ L2Queue k' = [] /\ L3Queue k' = [].
Proof.
  intros Hi Hth Hcl E1 E2 E3.
  destruct (ReadyToRun_admits thread k th Hi Hth Hcl) as (k1 & Hrun & Hadm).
  pose proof (admits_heap_closed thread th k k1 Hth Hcl Hadm) as Hcl1.
  destruct Hadm as (_ & (_ & Hi1 & _) & _ & Hq). rewrite Hi in Hi1.
  assert (Hr : ready k1 = [thread]).
  { unfold ready. destruct (band (checkPriority th)).
    - destruct Hq as (-> & -> & Hs & _). rewrite E1, E2, E3 in *.
      apply sorted_from_perm in Hs. cbn in Hs.
      apply Permutation_length_1_inv in Hs. rewrite Hs. reflexivity.
    - destruct Hq as (-> & -> & Hs & _). rewrite E1, E2, E3 in *.
      apply sorted_from_perm in Hs. cbn in Hs.
      apply Permutation_length_1_inv in Hs. rewrite Hs. reflexivity.
    - destruct Hq as (-> & -> & -> & _). rewrite E1, E2, E3. reflexivity. }
  destruct (FindNextToRun_step k1 thread [] Hi1 Hcl1 Hr)
    as (k' & Hrun' & Hr' & _).
  exists k'. unfold bind at 1. rewrite Hrun. split; [exact Hrun'|].
  exact (ready_nil k' Hr').
Qed.

(** X9: as many selections in a row as there are ready threads return
    all of L1 in queue order, then all of L2, then all of L3; they
    leave the three queues empty, and the next selection returns
    [NULL] and changes nothing. *)
Theorem select_n_drains_in_band_order k :
  intLevel k = IntOff -> heap_closed k = true ->
  exists k', select_n (length (ready k)) k = Done (map Some (ready k), k') /\
    L1Queue k' = [] /\ L2Queue k' = [] /\ L3Queue k' = [] /\
    FindNextToRun k' = Done (None, k').
Proof.
  remember (ready k) as l eqn:El. revert k El.
  induction l as [|p rest IH]; intros k El Hi Hcl; cbn [length select_n map].
  - exists k. split; [reflexivity|].
    destruct (ready_nil k (eq_sym El)) as (E1 & E2 & E3).
    rewrite FindNextToRun_none by assumption. auto.
  - destruct (FindNextToRun_step k p rest Hi Hcl (eq_sym El))
      as (k1 & Hrun & Hr & Hi1 & Hcl1).
    destruct (IH k1 (eq_sym Hr) Hi1 Hcl1) as (k' & Hsel & Hq).
    exists k'. split; [|exact Hq].
    rewrite (bind_Done _ _ _ _ _ Hrun).
    rewrite (bind_Done _ _ _ _ _ Hsel). reflexivity.
Qed.

(** X10: the first half of [Run] hands the CPU over: [nextThread] is the
    current thread and RUNNING, the old thread has its tick count reset
    to 0 and the clock recorded as its last tick, no other descriptor
    changes, and the "selected" and "replaced" lines are printed in this
    order, the second with the ticks the old thread had run.  The
    queues and [enablePreemptOnce] are not touched; the user state of
    the old thread is saved exactly when it has an address space; and
    without [finishing] the pending destruction is left alone. *)
Theorem Run_dispatch_hands_over next finishing k c n :
  intLevel k = IntOff ->
  (finishing = true -> toBeDestroyed k = None) ->
  heap k !! currentThread k = Some c -> fencepost c = true ->
  heap k !! next = Some n ->
  exists k', Run_dispatch next finishing k = Done (currentThread k, k') /\
    currentThread k' = next /\
    status <$> heap k' !! next = Some RUNNING /\
    checkTempTick <$> heap k' !! currentThread k = Some 0 /\
    lastExecTick <$> heap k' !! currentThread k = Some (totalTicks k) /\
    (forall p, p <> next -> p <> currentThread k ->
               heap k' !! p = heap k !! p) /\
    output k' = output k ++
      [Selected (totalTicks k) (getID n);
       Replaced (totalTicks k) (getID c) (checkTempTick c)] /\
    machine k' = machine k ++
      (if space c
       then [SaveUserState (currentThread k); SpaceSaveState (currentThread k)]
       else []) /\
    same_ready_set k k' /\
    (finishing = false -> toBeDestroyed k' = toBeDestroyed k).
Proof.
  intros Hi Hd Hc Hf Hn.
  destruct (Run_dispatch_ok next finishing k c n Hi Hd Hc Hf Hn) as [k' Hrun].
  exists k'. split; [exact Hrun|].
  apply Run_dispatch_effect in Hrun
    as (c0 & n0 & Hc0 & Hn0 & _ & _ & _ & _ & Hcur & Hheap & Hrs & Htbd
        & Hout & Hm & _).
  rewrite Hc in Hc0. injection Hc0 as <-.
  rewrite Hn in Hn0. injection Hn0 as <-.
  split; [exact Hcur|]. rewrite Hheap. unfold dispatched_heap.
  split.
  { rewrite (lookup_alter_Some _ _ _ _ _
               (lookup_alter_Some _ _ _ _ _ (lookup_alter_Some _ _ _ _ _ Hn))).
    repeat case_decide; try congruence; reflexivity. }
  split.
  { rewrite (lookup_alter_Some _ _ _ _ _
               (lookup_alter_Some _ _ _ _ _ (lookup_alter_Some _ _ _ _ _ Hc))).
    repeat case_decide; try congruence; reflexivity. }
  split.
  { rewrite (lookup_alter_Some _ _ _ _ _
               (lookup_alter_Some _ _ _ _ _ (lookup_alter_Some _ _ _ _ _ Hc))).
    repeat case_decide; try congruence; reflexivity. }
  split.
  { intros p Hp1 Hp2. rewrite !lookup_alter_ne by congruence. reflexivity. }
  split; [exact Hout|]. split; [exact Hm|]. split; [exact Hrs|].
  intros ->. exact Htbd.
Qed.


(** X12: the thread marked by a finishing [Run] is reclaimed by the
    second half of [Run] in whichever other thread resumes next: its
    descriptor is gone, the slot is empty, and every other descriptor,
    the queues and the current thread are as [SWITCH] left them. *)
Theorem Run_resume_reclaims_finished_thread next k old k1 p o :
  Run_dispatch next true k = Done (old, k1) ->
  p <> old -> heap k1 !! p = Some o ->
  exists k2, Run_resume p k1 = Done (tt, k2) /\
    heap k2 !! old = None /\ toBeDestroyed k2 = None /\
    (forall q, q <> old -> heap k2 !! q = heap k1 !! q) /\
    same_ready_set k1 k2 /\ currentThread k2 = currentThread k1.
Proof.
  intros Hrun Hne Ho.
  apply Run_dispatch_effect in Hrun
    as (c & n & Hc & _ & _ & Hi & _ & -> & _ & Hheap & _ & Htbd & _ & _
        & Hi1 & _).
  rewrite Hi in Hi1.
  assert (Hlive : live (heap k1) (currentThread k) = true).
  { rewrite Hheap. unfold dispatched_heap. rewrite !live_alter.
    unfold live. rewrite Hc. reflexivity. }
  eexists. split.
  { apply (Run_resume_run p k1 o Hi1); [|exact Ho].
    rewrite Htbd. split; [congruence|exact Hlive]. }
  rewrite Htbd. unfold same_ready_set. cbn.
  split; [apply lookup_delete_eq|]. split; [reflexivity|].
  split; [intros q Hq; apply lookup_delete_ne; congruence|]. auto.
Qed.

(** X13: a thread that resumes while it is itself the one pending
    destruction is deleted by [CheckToBeDestroyed] and then read
    ([oldThread->space]): the second half of [Run] uses a descriptor it
    has just freed. *)
Theorem Run_resume_of_pending_thread_reads_freed k d t :
  intLevel k = IntOff -> toBeDestroyed k = Some d ->
  heap k !! d = Some t ->
  Run_resume d k = Abort InvalidPointer.
Proof.
  intros Hi Hd Ht. unfold Run_resume.
  rewrite (bind_Done (gets intLevel) _ k _ _ eq_refl). rewrite Hi.
  rewrite (bind_Done _ _ k _ _ eq_refl).
  rewrite (bind_Done _ _ _ _ _ (CheckToBeDestroyed_some k d t Hd Ht)).
  unfold bind, deref. cbn. rewrite lookup_delete_eq. reflexivity.
Qed.

(** X14: both comparators are strict weak orders, as [std::list::sort]
    requires: irreflexive, asymmetric, transitive, and with a
    transitive "not before". *)
Theorem comparators_are_strict_weak_orders :
  (forall a, cmpL2 a a = false) /\
  (forall a b, cmpL2 a b = true -> cmpL2 b a = false) /\
  (forall a b c, cmpL2 a b = true -> cmpL2 b c = true -> cmpL2 a c = true) /\
  (forall a b c, cmpL2 b a = false -> cmpL2 c b = false -> cmpL2 c a = false) /\
  (forall a, cmpL1 a a = false) /\
  (forall a b, cmpL1 a b = true -> cmpL1 b a = false) /\
  (forall a b c, cmpL1 a b = true -> cmpL1 b c = true -> cmpL1 a c = true) /\
  (forall a b c, cmpL1 b a = false -> cmpL1 c b = false -> cmpL1 c a = false).
Proof.
  unfold cmpL2, cmpL1. repeat split; intros *; rewrite ?Z.gtb_ltb; try lia.
  - apply burst_ltb_irrefl.
  - apply burst_ltb_asym.
  - intros Hab Hbc.
    destruct (burst_ltb (checkT a) (checkT c)) eqn:E; [reflexivity|].
    pose proof (burst_ltb_asym _ _ Hbc) as Hcb.
    rewrite (burst_leb_trans _ _ _ Hcb E) in Hab. discriminate.
  - apply burst_leb_trans.
Qed.

(** X15: on an L2 that is in order, [ReadyToRun] puts a thread of
    priority 50 to 99 behind every thread of the same or a higher
    priority and in front of every thread of a lower one; the threads
    that were waiting keep their places relative to each other. *)
Theorem ReadyToRun_inserts_by_priority thread k th :
  intLevel k = IntOff -> heap k !! thread = Some th ->
  heap_closed k = true ->
  50 <= checkPriority th < 100 -> L2_ordered k ->
  exists k' q1 q2, ReadyToRun thread k = Done (tt, k') /\
    L2Queue k = q1 ++ q2 /\ L2Queue k' = q1 ++ thread :: q2 /\
    (forall p t, In p q1 -> heap k !! p = Some t ->
                 checkPriority th <= checkPriority t) /\
    (forall p t, In p q2 -> heap k !! p = Some t ->
                 checkPriority t < checkPriority th).
Proof.
  intros Hi Hth Hcl Hprio Ho.
  destruct (ReadyToRun_admits thread k th Hi Hth Hcl)
    as (k' & Hrun & Hheap & _ & _ & Hq).
  unfold band in Hq.
  destruct (checkPriority th <? 50) eqn:E50; [apply Z.ltb_lt in E50; lia|].
  destruct (checkPriority th <? 100) eqn:E100; [|apply Z.ltb_ge in E100; lia].
  destruct Hq as (_ & _ & Hs & _).
  assert (Ho' : ordered cmpL2 (heap k') (L2Queue k)).
  { rewrite Hheap.
    apply (ordered_same_keys checkPriority Z.gtb cmpL2 (heap k));
      [reflexivity| |exact Ho].
    intros p _. apply admitted_heap_priority. }
  assert (Hth' : heap k' !! thread = Some (setStatus READY th))
    by (rewrite Hheap; exact (admitted_heap_thread thread k th Hth)).
  destruct (sorted_from_insert cmpL2 (heap k') _ thread _ _
              cmpL2_le_trans Ho' Hth' Hs)
    as (q1 & q2 & E & E' & H1 & H2).
  exists k', q1, q2. split; [exact Hrun|]. split; [exact E|].
  split; [exact E'|].
  assert (Hkey : forall p t, heap k !! p = Some t ->
            exists t', heap k' !! p = Some t' /\
                       checkPriority t' = checkPriority t).
  { intros p t Hp. pose proof (admitted_heap_priority thread k p) as Hk.
    rewrite <- Hheap, Hp in Hk. destruct (heap k' !! p) as [t'|]; [|discriminate].
    cbn in Hk. injection Hk as Hk. eauto. }
  split.
  - intros p t Hin Hp. destruct (Hkey p t Hp) as (t' & Hp' & <-).
    pose proof (H1 p t' Hin Hp') as Hc. unfold cmpL2 in Hc. cbn in Hc.
    rewrite Z.gtb_ltb in Hc. lia.
  - intros p t Hin Hp. destruct (Hkey p t Hp) as (t' & Hp' & <-).
    pose proof (H2 p t' Hin Hp') as Hc. unfold cmpL2 in Hc. cbn in Hc.
    rewrite Z.gtb_ltb in Hc. lia.
Qed.

(** X16: on an L1 that is in order, [ReadyToRun] puts a thread of
    priority 100 or more behind every thread whose predicted burst is
    not larger than its own and in front of every thread with a larger
    one, and moves nobody else -- provided the running thread is not
    waiting on L1 or is the admitted thread itself. *)
Theorem ReadyToRun_inserts_by_burst thread k th :
  intLevel k = IntOff -> heap k !! thread = Some th ->
  heap_closed k = true ->
  100 <= checkPriority th -> L1_ordered k ->
  (currentThread k = thread \/ ~ In (currentThread k) (L1Queue k)) ->
  exists k' q1 q2, ReadyToRun thread k = Done (tt, k') /\
    L1Queue k = q1 ++ q2 /\ L1Queue k' = q1 ++ thread :: q2 /\
    (forall p t, In p q1 -> heap k !! p = Some t ->
                 burst_ltb (checkT th) (checkT t) = false) /\
    (forall p t, In p q2 -> heap k !! p = Some t ->
                 burst_ltb (checkT th) (checkT t) = true).
Proof.
  intros Hi Hth Hcl Hprio Ho Hcur.
  destruct (ReadyToRun_admits thread k th Hi Hth Hcl)
    as (k' & Hrun & Hheap & _ & _ & Hq).
  unfold band in Hq.
  destruct (checkPriority th <? 50) eqn:E50; [apply Z.ltb_lt in E50; lia|].
  destruct (checkPriority th <? 100) eqn:E100; [apply Z.ltb_lt in E100; lia|].
  destruct Hq as (_ & _ & Hs & _).
  assert (HT : forall p, In p (L1Queue k) ->
            checkT <$> heap k' !! p = checkT <$> heap k !! p).
  { intros p Hin. rewrite Hheap. apply admitted_heap_T_other.
    destruct Hcur as [Hc|Hc]; [auto|]. left. intros ->. exact (Hc Hin). }
  assert (Ho' : ordered cmpL1 (heap k') (L1Queue k)).
  { apply (ordered_same_keys checkT burst_ltb cmpL1 (heap k));
      [reflexivity|exact HT|exact Ho]. }
  assert (Hth' : heap k' !! thread = Some (setStatus READY th))
    by (rewrite Hheap; exact (admitted_heap_thread thread k th Hth)).
  destruct (sorted_from_insert cmpL1 (heap k') _ thread _ _
              cmpL1_le_trans Ho' Hth' Hs)
    as (q1 & q2 & E & E' & H1 & H2).
  exists k', q1, q2. split; [exact Hrun|]. split; [exact E|].
  split; [exact E'|].
  assert (Hkey : forall p t, In p (L1Queue k) -> heap k !! p = Some t ->
            exists t', heap k' !! p = Some t' /\ checkT t' = checkT t).
  { intros p t Hin Hp. pose proof (HT p Hin) as Hk. rewrite Hp in Hk.
    destruct (heap k' !! p) as [t'|]; [|discriminate].
    cbn in Hk. injection Hk as Hk. eauto. }
  split.
  - intros p t Hin Hp.
    destruct (Hkey p t) as (t' & Hp' & <-);
      [rewrite E; apply in_or_app; auto|exact Hp|].
    exact (H1 p t' Hin Hp').
  - intros p t Hin Hp.
    destruct (Hkey p t) as (t' & Hp' & <-);
      [rewrite E; apply in_or_app; auto|exact Hp|].
    exact (H2 p t' Hin Hp').
Qed.

(** X17: with the queues in order, the thread [FindNextToRun] returns
    is the best of its queue: taken from L1, no thread of L1 has a
    smaller predicted burst; taken from L2 (L1 empty), no thread of L2
    has a higher priority. *)
Theorem FindNextToRun_returns_the_best k :
  intLevel k = IntOff -> heap_closed k = true ->
  L1_ordered k -> L2_ordered k ->
  exists r k', FindNextToRun k = Done (r, k') /\
    (forall p q t tq, r = Some p ->
       In q (L1Queue k) ->
       heap k !! p = Some t -> heap k !! q = Some tq ->
       burst_ltb (checkT tq) (checkT t) = false) /\
    (forall p q t tq, r = Some p ->
       L1Queue k = [] -> In q (L2Queue k) ->
       heap k !! p = Some t -> heap k !! q = Some tq ->
       checkPriority tq <= checkPriority t).
Proof.
  intros Hi Hcl Ho1 Ho2.
  destruct (FindNextToRun_run k Hi Hcl)
    as (r & k' & Hrun & _ & _ & _ & _ & Hq).
  exists r, k'. split; [exact Hrun|].
  unfold L1_ordered, L2_ordered, ordered in Ho1, Ho2. split.
  - intros p q t tq -> Hin Hp Hpq.
    destruct (L1Queue k) as [|p1 q1]; [contradiction|].
    destruct Hq as (Hr & _). injection Hr as <-.
    apply StronglySorted_inv in Ho1 as [_ Hall].
    destruct Hin as [->|Hin].
    + rewrite Hp in Hpq. injection Hpq as <-. apply burst_ltb_irrefl.
    + rewrite Forall_forall in Hall. exact (Hall q Hin t tq Hp Hpq).
  - intros p q t tq -> E1 Hin Hp Hpq. rewrite E1 in Hq.
    destruct (L2Queue k) as [|p2 q2]; [contradiction|].
    destruct Hq as (Hr & _). injection Hr as <-.
    apply StronglySorted_inv in Ho2 as [_ Hall].
    destruct Hin as [->|Hin].
    + rewrite Hp in Hpq. injection Hpq as <-. lia.
    + rewrite Forall_forall in Hall.
      pose proof (Hall q Hin t tq Hp Hpq) as Hc. unfold cmpL2 in Hc.
      rewrite Z.gtb_ltb in Hc. lia.
Qed.

(** X18: a fresh scheduler has nothing ready and nothing to reclaim:
    its queues are in order, both selection routines return [NULL]
    without changing it, and [CheckToBeDestroyed] does nothing. *)
Theorem Scheduler_starts_empty k :
  intLevel k = IntOff ->
  L1_ordered (Scheduler k) /\ L2_ordered (Scheduler k) /\
  heap_closed (Scheduler k) = live (heap k) (currentThread k) /\
  FindNextToRun (Scheduler k) = Done (None, Scheduler k) /\
  PureFindNext (Scheduler k) = Done (None, Scheduler k) /\
  CheckToBeDestroyed (Scheduler k) = Done (tt, Scheduler k).
Proof.
  intros Hi. split; [constructor|]. split; [constructor|].
  split; [unfold heap_closed; cbn; rewrite !andb_true_r; reflexivity|].
  split; [apply FindNextToRun_none; auto|].
  split; [rewrite PureFindNext_run by exact Hi; reflexivity|].
  apply CheckToBeDestroyed_none. reflexivity.
Qed.

(** X19: [ReadyToRun] does not look whether the thread is already
    waiting: the ready set after the call is the one before it with one
    more occurrence of the thread, and nobody is dropped. *)
Theorem ReadyToRun_adds_one_occurrence thread k th :
  intLevel k = IntOff -> heap k !! thread = Some th ->
  heap_closed k = true ->
  exists k', ReadyToRun thread k = Done (tt, k') /\
    Permutation (thread :: ready k) (ready k') /\
    forall p, count_occ Pos.eq_dec (ready k') p
              = (count_occ Pos.eq_dec (ready k) p
                 + if Pos.eq_dec thread p then 1 else 0)%nat.
Proof.
  intros Hi Hth Hcl.
  destruct (ReadyToRun_admits thread k th Hi Hth Hcl)
    as (k' & Hrun & _ & _ & _ & Hq).
  exists k'. split; [exact Hrun|].
  assert (Hp : Permutation (thread :: ready k) (ready k')).
  { unfold ready. destruct (band (checkPriority th)).
    - destruct Hq as (-> & -> & Hs & _).
      rewrite <- (sorted_from_perm _ _ _ _ Hs).
      rewrite <- app_assoc. cbn. apply Permutation_middle.
    - destruct Hq as (-> & -> & Hs & _).
      rewrite <- (sorted_from_perm _ _ _ _ Hs).
      rewrite <- app_assoc. cbn.
      rewrite (Permutation_middle (L1Queue k) _ thread).
      apply Permutation_app_head, Permutation_middle.
    - destruct Hq as (-> & -> & -> & _).
      rewrite !app_assoc. apply Permutation_cons_append. }
  split; [exact Hp|]. intros p.
  rewrite <- (proj1 (Permutation_count_occ Pos.eq_dec _ _) Hp p).
  cbn. destruct (Pos.eq_dec thread p); lia.
Qed.

(** X20: a thread admitted to a band above everything that is ready is
    the next one selected: an L1 thread when L1 is empty, an L2 thread
    when L1 and L2 are empty, whatever waits below. *)
Theorem ReadyToRun_into_empty_band_is_next thread k th :
  intLevel k = IntOff -> heap k !! thread = Some th ->
  heap_closed k = true ->
  L1Queue k = [] ->
  (checkPriority th < 100 -> L2Queue k = []) ->
  (checkPriority th < 50 -> L3Queue k = []) ->
  exists k', (ReadyToRun thread ;; PureFindNext) k = Done (Some thread, k') /\
    exists k'', (ReadyToRun thread ;; FindNextToRun) k
                = Done (Some thread, k'').
Proof.
  intros Hi Hth Hcl E1 E2 E3.
  destruct (ReadyToRun_admits thread k th Hi Hth Hcl) as (k1 & Hrun & Hadm).
  pose proof (admits_heap_closed thread th k k1 Hth Hcl Hadm) as Hcl1.
  destruct Hadm as (_ & (_ & Hi1 & _) & _ & Hq). rewrite Hi in Hi1.
  assert (Hr : exists rest, ready k1 = thread :: rest).
  { unfold ready, band in *.
    destruct (checkPriority th <? 50) eqn:E50;
      [|destruct (checkPriority th <? 100) eqn:E100].
    - apply Z.ltb_lt in E50. destruct Hq as (-> & -> & -> & _).
      rewrite E1, E2, E3 by lia. cbn. eauto.
    - apply Z.ltb_lt in E100. destruct Hq as (-> & -> & Hs & _).
      rewrite E1, E2 in * by lia. apply sorted_from_perm in Hs. cbn in Hs.
      apply Permutation_length_1_inv in Hs. rewrite Hs. cbn. eauto.
    - destruct Hq as (-> & -> & Hs & _).
      rewrite E1 in *. apply sorted_from_perm in Hs. cbn in Hs.
      apply Permutation_length_1_inv in Hs. rewrite Hs. cbn. eauto. }
  destruct Hr as [rest Hr].
  destruct (FindNextToRun_step k1 thread rest Hi1 Hcl1 Hr)
    as (k2 & Hrun2 & _).
  exists k1. split.
  - unfold bind at 1. rewrite Hrun.
    rewrite (PureFindNext_run k1 Hi1). f_equal. f_equal.
    unfold ready in Hr.
    destruct (L1Queue k1) as [|? ?]; [destruct (L2Queue k1) as [|? ?];
      [destruct (L3Queue k1) as [|? ?]|]|]; cbn in Hr; congruence.
  - exists k2. unfold bind at 1. rewrite Hrun. exact Hrun2.
Qed.
End Further.

(** ** The further properties on concrete kernels *)


Lemma CheckToBeDestroyed_deletes_only_pending_witness :
  toBeDestroyed (kernel_busy (BA := IntBurst)) = Some 5%positive /\
  heap (kernel_busy (BA := IntBurst)) !! 5%positive
    = Some (thread_of 5 10 0 0 TERMINATED) /\
  exists k', CheckToBeDestroyed (kernel_busy (BA := IntBurst)) = Done (tt, k') /\
             heap k' !! 5%positive = None /\
             L1Queue k' = [2%positive].
Proof.
  split; [reflexivity|]. split; [reflexivity|].
  destruct (CheckToBeDestroyed_deletes_only_pending
              (kernel_busy (BA := IntBurst)) 5%positive
              (thread_of 5 10 0 0 TERMINATED) eq_refl eq_refl)
    as (k' & Hrun & Hgone & _ & (H1 & _) & _).
  exists k'. split; [exact Hrun|]. split; [exact Hgone|exact H1].
Defined.

Lemma ReadyToRun_preempt_flag_witness :
  intLevel (kernel_ABC (BA := IntBurst)) = IntOff /\
  heap (kernel_ABC (BA := IntBurst)) !! 2%positive
    = Some (thread_of 2 120 30 0 NEW) /\
  heap_closed (kernel_ABC (BA := IntBurst)) = true /\
  exists k', ReadyToRun 2%positive (kernel_ABC (BA := IntBurst)) = Done (tt, k') /\
             enablePreemptOnce k' = true.
Proof.
  split; [reflexivity|]. split; [reflexivity|]. split; [vm_compute; reflexivity|].
  destruct (ReadyToRun_preempt_flag 2%positive (kernel_ABC (BA := IntBurst))
              (thread_of 2 120 30 0 NEW) eq_refl eq_refl eq_refl)
    as (k' & Hrun & Hflag).
  exists k'. split; [exact Hrun|]. apply Hflag. right.
  split; [cbn; lia|cbn; discriminate].
Defined.

Lemma ReadyToRun_writes_status_and_predictor_only_witness :
  intLevel (kernel_yield (BA := IntBurst)) = IntOff /\
  heap (kernel_yield (BA := IntBurst)) !! 2%positive
    = Some (thread_of 2 130 10 0 NEW) /\
  heap_closed (kernel_yield (BA := IntBurst)) = true /\
  exists k', ReadyToRun 2%positive (kernel_yield (BA := IntBurst)) = Done (tt, k') /\
             currentThread k' = 1%positive /\ toBeDestroyed k' = None.
Proof.
  split; [reflexivity|]. split; [reflexivity|]. split; [vm_compute; reflexivity|].
  destruct (ReadyToRun_writes_status_and_predictor_only 2%positive
              (kernel_yield (BA := IntBurst)) (thread_of 2 130 10 0 NEW)
              eq_refl eq_refl eq_refl)
    as (k' & Hrun & (Hc & _ & _ & _ & Hd & _) & _).
  exists k'. split; [exact Hrun|]. split; [exact Hc|exact Hd].
Defined.

Lemma ReadyToRun_keeps_heap_closed_witness :
  intLevel (kernel_ABC (BA := IntBurst)) = IntOff /\
  heap (kernel_ABC (BA := IntBurst)) !! 3%positive
    = Some (thread_of 3 10 0 0 NEW) /\
  heap_closed (kernel_ABC (BA := IntBurst)) = true /\
  exists k', ReadyToRun 3%positive (kernel_ABC (BA := IntBurst)) = Done (tt, k') /\
             heap_closed k' = true.
Proof.
  split; [reflexivity|]. split; [reflexivity|]. split; [vm_compute; reflexivity|].
  destruct (ReadyToRun_keeps_heap_closed 3%positive
              (kernel_ABC (BA := IntBurst)) (thread_of 3 10 0 0 NEW)
              eq_refl eq_refl eq_refl)
    as (k' & Hrun & Hcl & _).
  exists k'. split; [exact Hrun|exact Hcl].
Defined.

Lemma FindNextToRun_alarm_and_trace_witness :
  intLevel (kernel_busy (BA := IntBurst)) = IntOff /\
  heap_closed (kernel_busy (BA := IntBurst)) = true /\
  exists r k', FindNextToRun (kernel_busy (BA := IntBurst)) = Done (r, k') /\
               alarmStat k' = false.
Proof.
  split; [reflexivity|]. split; [vm_compute; reflexivity|].
  destruct (FindNextToRun_alarm_and_trace
              (kernel_busy (BA := IntBurst)) eq_refl eq_refl)
    as (r & k' & Hrun & Ha & _).
  exists r, k'. split; [exact Hrun|exact Ha].
Defined.

Lemma FindNextToRun_keeps_heap_closed_witness :
  intLevel (kernel_busy (BA := IntBurst)) = IntOff /\
  heap_closed (kernel_busy (BA := IntBurst)) = true /\
  exists r k', FindNextToRun (kernel_busy (BA := IntBurst)) = Done (r, k') /\
               heap_closed k' = true.
Proof.
  split; [reflexivity|]. split; [vm_compute; reflexivity|].
  destruct (FindNextToRun_keeps_heap_closed
              (kernel_busy (BA := IntBurst)) eq_refl eq_refl)
    as (r & k' & Hrun & Hcl & _).
  exists r, k'. split; [exact Hrun|exact Hcl].
Defined.

Lemma ReadyToRun_then_FindNextToRun_witness :
  intLevel (kernel_ABC (BA := IntBurst)) = IntOff /\
  heap (kernel_ABC (BA := IntBurst)) !! 2%positive
    = Some (thread_of 2 120 30 0 NEW) /\
  heap_closed (kernel_ABC (BA := IntBurst)) = true /\
  L1Queue (kernel_ABC (BA := IntBurst)) = [] /\
  L2Queue (kernel_ABC (BA := IntBurst)) = [] /\
  L3Queue (kernel_ABC (BA := IntBurst)) = [] /\
  exists k', (ReadyToRun 2%positive ;; FindNextToRun)%kernel
               (kernel_ABC (BA := IntBurst)) = Done (Some 2%positive, k') /\
             L1Queue k' = [].
Proof.
  split; [reflexivity|]. split; [reflexivity|]. split; [vm_compute; reflexivity|].
  split; [reflexivity|]. split; [reflexivity|]. split; [reflexivity|].
  destruct (ReadyToRun_then_FindNextToRun 2%positive
              (kernel_ABC (BA := IntBurst)) (thread_of 2 120 30 0 NEW)
              eq_refl eq_refl eq_refl eq_refl eq_refl eq_refl)
    as (k' & Hrun & H1 & _).
  exists k'. split; [exact Hrun|exact H1].
Defined.

Lemma select_n_drains_in_band_order_witness :
  intLevel (kernel_busy (BA := IntBurst)) = IntOff /\
  heap_closed (kernel_busy (BA := IntBurst)) = true /\
  exists k', select_n 3 (kernel_busy (BA := IntBurst))
             = Done ([Some 2%positive; Some 3%positive; Some 4%positive], k') /\
             L3Queue k' = [].
Proof.
  split; [reflexivity|]. split; [vm_compute; reflexivity|].
  destruct (select_n_drains_in_band_order
              (kernel_busy (BA := IntBurst)) eq_refl eq_refl)
    as (k' & Hrun & _ & _ & H3 & _).
  exists k'. split; [exact Hrun|exact H3].
Defined.

Lemma Run_dispatch_hands_over_witness :
  intLevel (kernel_user (BA := IntBurst) true) = IntOff /\
  toBeDestroyed (kernel_user (BA := IntBurst) true) = None /\
  heap (kernel_user (BA := IntBurst) true) !! 1%positive
    = Some (mkThread 1 120 (burst_of_ticks 50) 7 0 RUNNING true true) /\
  heap (kernel_user (BA := IntBurst) true) !! 2%positive
    = Some (mkThread 2 60 (burst_of_ticks 0) 0 0 NEW true true) /\
  exists k', Run_dispatch 2%positive false (kernel_user (BA := IntBurst) true)
             = Done (1%positive, k') /\
             currentThread k' = 2%positive /\
             output k' = [Selected 0 2; Replaced 0 1 7] /\
             machine k' = [SaveUserState 1%positive; SpaceSaveState 1%positive].
Proof.
  split; [reflexivity|]. split; [reflexivity|]. split; [reflexivity|].
  split; [reflexivity|].
  destruct (Run_dispatch_hands_over 2%positive false
              (kernel_user (BA := IntBurst) true)
              (mkThread 1 120 (burst_of_ticks 50) 7 0 RUNNING true true)
              (mkThread 2 60 (burst_of_ticks 0) 0 0 NEW true true)
              eq_refl (fun H => eq_refl) eq_refl eq_refl eq_refl)
    as (k' & Hrun & Hc & _ & _ & _ & _ & Hout & Hm & _).
  exists k'. split; [exact Hrun|]. split; [exact Hc|].
  split; [exact Hout|exact Hm].
Defined.


Lemma Run_resume_reclaims_finished_thread_witness :
  Run_dispatch 2%positive true (kernel_ABC (BA := IntBurst))
  = Done (1%positive,
          state_of (Run_dispatch 2%positive true) (kernel_ABC (BA := IntBurst))) /\
  heap (state_of (Run_dispatch 2%positive true) (kernel_ABC (BA := IntBurst)))
    !! 2%positive
  = Some (thread_of 2 120 30 0 RUNNING) /\
  exists k2,
    Run_resume 2%positive
      (state_of (Run_dispatch 2%positive true) (kernel_ABC (BA := IntBurst)))
    = Done (tt, k2) /\
    heap k2 !! 1%positive = None /\ toBeDestroyed k2 = None.
Proof.
  assert (Hrun : Run_dispatch 2%positive true (kernel_ABC (BA := IntBurst))
                 = Done (1%positive,
                         state_of (Run_dispatch 2%positive true)
                                  (kernel_ABC (BA := IntBurst))))
    by (vm_compute; reflexivity).
  assert (Ho : heap (state_of (Run_dispatch 2%positive true)
                              (kernel_ABC (BA := IntBurst))) !! 2%positive
               = Some (thread_of 2 120 30 0 RUNNING))
    by (vm_compute; reflexivity).
  split; [exact Hrun|]. split; [exact Ho|].
  destruct (Run_resume_reclaims_finished_thread 2%positive
              (kernel_ABC (BA := IntBurst)) 1%positive _ 2%positive _
              Hrun ltac:(discriminate) Ho)
    as (k2 & Hres & Hgone & Hd & _).
  exists k2. split; [exact Hres|]. split; [exact Hgone|exact Hd].
Defined.

Lemma Run_resume_of_pending_thread_reads_freed_witness :
  intLevel (kernel_busy (BA := IntBurst)) = IntOff /\
  toBeDestroyed (kernel_busy (BA := IntBurst)) = Some 5%positive /\
  heap (kernel_busy (BA := IntBurst)) !! 5%positive
    = Some (thread_of 5 10 0 0 TERMINATED) /\
  Run_resume 5%positive (kernel_busy (BA := IntBurst)) = Abort InvalidPointer.
Proof.
  split; [reflexivity|]. split; [reflexivity|]. split; [reflexivity|].
  exact (Run_resume_of_pending_thread_reads_freed
           (kernel_busy (BA := IntBurst)) 5%positive
           (thread_of 5 10 0 0 TERMINATED) eq_refl eq_refl eq_refl).
Defined.

Lemma ReadyToRun_inserts_by_priority_witness :
  intLevel (kernel_queued (BA := IntBurst)) = IntOff /\
  heap (kernel_queued (BA := IntBurst)) !! 7%positive
    = Some (thread_of 7 70 0 0 NEW) /\
  heap_closed (kernel_queued (BA := IntBurst)) = true /\
  L2_ordered (kernel_queued (BA := IntBurst)) /\
  exists k' q1 q2,
    ReadyToRun 7%positive (kernel_queued (BA := IntBurst)) = Done (tt, k') /\
    [4%positive; 5%positive] = q1 ++ q2 /\
    L2Queue k' = q1 ++ 7%positive :: q2.
Proof.
  assert (Ho : L2_ordered (kernel_queued (BA := IntBurst)))
    by (apply orderedb_spec; vm_compute; reflexivity).
  split; [reflexivity|]. split; [reflexivity|]. split; [vm_compute; reflexivity|].
  split; [exact Ho|].
  destruct (ReadyToRun_inserts_by_priority 7%positive
              (kernel_queued (BA := IntBurst)) (thread_of 7 70 0 0 NEW)
              eq_refl eq_refl eq_refl ltac:(cbn; lia) Ho)
    as (k' & q1 & q2 & Hrun & E & E' & _).
  exists k', q1, q2. split; [exact Hrun|]. split; [exact E|exact E'].
Defined.

Lemma ReadyToRun_inserts_by_burst_witness :
  intLevel (kernel_queued (BA := IntBurst)) = IntOff /\
  heap (kernel_queued (BA := IntBurst)) !! 6%positive
    = Some (thread_of 6 110 20 0 NEW) /\
  heap_closed (kernel_queued (BA := IntBurst)) = true /\
  L1_ordered (kernel_queued (BA := IntBurst)) /\
  ~ In (currentThread (kernel_queued (BA := IntBurst)))
       (L1Queue (kernel_queued (BA := IntBurst))) /\
  exists k' q1 q2,
    ReadyToRun 6%positive (kernel_queued (BA := IntBurst)) = Done (tt, k') /\
    [2%positive; 3%positive] = q1 ++ q2 /\
    L1Queue k' = q1 ++ 6%positive :: q2.
Proof.
  assert (Ho : L1_ordered (kernel_queued (BA := IntBurst)))
    by (apply orderedb_spec; vm_compute; reflexivity).
  assert (Hcur : ~ In (currentThread (kernel_queued (BA := IntBurst)))
                      (L1Queue (kernel_queued (BA := IntBurst)))).
  { cbn. intros [H|[H|[]]]; discriminate. }
  split; [reflexivity|]. split; [reflexivity|]. split; [vm_compute; reflexivity|].
  split; [exact Ho|]. split; [exact Hcur|].
  destruct (ReadyToRun_inserts_by_burst 6%positive
              (kernel_queued (BA := IntBurst)) (thread_of 6 110 20 0 NEW)
              eq_refl eq_refl eq_refl ltac:(cbn; lia) Ho (or_intror Hcur))
    as (k' & q1 & q2 & Hrun & E & E' & _).
  exists k', q1, q2. split; [exact Hrun|]. split; [exact E|exact E'].
Defined.

Lemma FindNextToRun_returns_the_best_witness :
  intLevel (kernel_queued (BA := IntBurst)) = IntOff /\
  heap_closed (kernel_queued (BA := IntBurst)) = true /\
  L1_ordered (kernel_queued (BA := IntBurst)) /\
  L2_ordered (kernel_queued (BA := IntBurst)) /\
  exists r k', FindNextToRun (kernel_queued (BA := IntBurst)) = Done (r, k').
Proof.
  assert (H1 : L1_ordered (kernel_queued (BA := IntBurst)))
    by (apply orderedb_spec; vm_compute; reflexivity).
  assert (H2 : L2_ordered (kernel_queued (BA := IntBurst)))
    by (apply orderedb_spec; vm_compute; reflexivity).
  split; [reflexivity|]. split; [vm_compute; reflexivity|].
  split; [exact H1|]. split; [exact H2|].
  destruct (FindNextToRun_returns_the_best
              (kernel_queued (BA := IntBurst)) eq_refl eq_refl H1 H2)
    as (r & k' & Hrun & _).
  exists r, k'. exact Hrun.
Defined.

Lemma Scheduler_starts_empty_witness :
  intLevel (kernel_busy (BA := IntBurst)) = IntOff /\
  FindNextToRun (Scheduler (kernel_busy (BA := IntBurst)))
  = Done (None, Scheduler (kernel_busy (BA := IntBurst))).
Proof.
  split; [reflexivity|].
  destruct (Scheduler_starts_empty (kernel_busy (BA := IntBurst)) eq_refl)
    as (_ & _ & _ & Hf & _).
  exact Hf.
Defined.

Lemma ReadyToRun_adds_one_occurrence_witness :
  intLevel (kernel_busy (BA := IntBurst)) = IntOff /\
  heap (kernel_busy (BA := IntBurst)) !! 2%positive
    = Some (thread_of 2 110 10 0 READY) /\
  heap_closed (kernel_busy (BA := IntBurst)) = true /\
  exists k', ReadyToRun 2%positive (kernel_busy (BA := IntBurst)) = Done (tt, k') /\
             count_occ Pos.eq_dec (ready k') 2%positive = 2%nat.
Proof.
  split; [reflexivity|]. split; [reflexivity|]. split; [vm_compute; reflexivity|].
  destruct (ReadyToRun_adds_one_occurrence 2%positive
              (kernel_busy (BA := IntBurst)) (thread_of 2 110 10 0 READY)
              eq_refl eq_refl eq_refl)
    as (k' & Hrun & _ & Hc).
  exists k'. split; [exact Hrun|]. rewrite Hc. reflexivity.
Defined.

Lemma ReadyToRun_into_empty_band_is_next_witness :
  intLevel (kernel_ABC (BA := IntBurst)) = IntOff /\
  heap (kernel_ABC (BA := IntBurst)) !! 2%positive
    = Some (thread_of 2 120 30 0 NEW) /\
  heap_closed (kernel_ABC (BA := IntBurst)) = true /\
  L1Queue (kernel_ABC (BA := IntBurst)) = [] /\
  exists k', (ReadyToRun 2%positive ;; PureFindNext)%kernel
               (kernel_ABC (BA := IntBurst)) = Done (Some 2%positive, k').
Proof.
  split; [reflexivity|]. split; [reflexivity|]. split; [vm_compute; reflexivity|].
  split; [reflexivity|].
  destruct (ReadyToRun_into_empty_band_is_next 2%positive
              (kernel_ABC (BA := IntBurst)) (thread_of 2 120 30 0 NEW)
              eq_refl eq_refl eq_refl eq_refl
              (fun _ => eq_refl) (fun _ => eq_refl))
    as (k' & Hrun & _).
  exists k'. exact Hrun.
Defined.
